(** * UltimateSMM Bot: the scheduler, the safety monitor and the API client

    A shallow embedding of [CORE_SYSTEM/safety_monitor.py],
    [CORE_SYSTEM/scheduler.py] and [CORE_SYSTEM/api_client.py], and the
    properties of the design document checked against it.

    Conventions of the embedding.
    - A [datetime] is an integer number of microseconds (naive local time);
      a [timedelta] is a difference of two such numbers, and
      [total_seconds() >= n] is compared exactly, in microseconds.
    - Everything the program asks of its surroundings is answered by an
      [oracle]: the n-th answer of the clock, of the random generator and of
      the network, and whether [stop()] arrives during the n-th sleep. The
      [world] counts the questions asked so far and holds the three JSON
      files, what keeps the event file from being saved (if anything), the
      durations slept and the lines printed.
    - A method [m(self, x)] becomes [m x self : M (result * self)], where [M]
      is the state monad over the [world]. *)

From Stdlib Require Import ZArith QArith Qround List String Ascii Bool Lia.
From Stdlib Require Import DecimalString.
Import ListNotations.
Local Open Scope string_scope.
Local Open Scope list_scope.
Local Open Scope Z_scope.

(** ** Python runtime *)

Module Py.

(** [len(l)] *)
Definition len {A : Type} (l : list A) : Z := Z.of_nat (List.length l).

(** [l[-n:]] for a positive [n]: the last [n] elements, all of [l] when it is
    shorter. *)
Definition slice_last {A : Type} (n : nat) (l : list A) : list A :=
  skipn (List.length l - n) l.

(** [str(n)] for an [int]. *)
Definition str_int (n : Z) : string := NilZero.string_of_int (Z.to_int n).

(** Microseconds in a second. *)
Definition usec : Z := 1000000.

(** [d.strftime("%Y-%m-%d %H:%M:%S")] keeps the date and time to the second;
    [datetime.strptime] of that text is the datetime truncated to the second.
    The text is modelled by the number of whole seconds, which it determines
    and which determines it. *)
Definition strftime_seconds (d : Z) : Z := d / usec.
Definition strptime_seconds (s : Z) : Z := s * usec.

(** A number below 100 with [%02d]. *)
Definition two_digits (n : Z) : string :=
  if n <? 10 then String.append "0" (str_int n) else str_int n.

(** [d.strftime("%H:%M")] *)
Definition strftime_HM (d : Z) : string :=
  String.append (two_digits ((d / (3600 * usec)) mod 24))
    (String.append ":" (two_digits ((d / (60 * usec)) mod 60))).

(** [timedelta(hours=1)] *)
Definition one_hour : Z := 3600 * usec.

End Py.

(** ** Configuration files *)

(** [CONFIG/safety_rules.json] *)
Record operation_limits := {
  max_posts_per_day : Z;
  min_delay_between_actions : Z;
  max_actions_per_hour : Z;
  max_concurrent_actions : Z
}.

Record safety_measures := {
  suspicious_activity_threshold : Z;
  auto_suspend_on_detection : bool;
  rate_limiting : bool
}.

Record safety_rules := {
  limits : operation_limits;
  measures : safety_measures
}.

(** [CONFIG/auto_schedule.json]; [break_schedule] is read with
    [config.get('break_schedule', [])], so a file without the key is the
    record with the empty list. *)
Record operational_hours := {
  start_time : string;
  end_time : string;
  oh_enabled : bool
}.

Record break_rule := {
  after_minutes : Z;
  break_minutes : Z;
  enabled : bool
}.

Record schedule_config := {
  hours : operational_hours;
  break_schedule : list break_rule
}.

(** An entry of [LOGS/safety_events.json]. *)
Record safety_event := {
  ev_timestamp : Z;
  event : string;
  action : string;
  duration_minutes : Z
}.

(** ** The world and the oracle *)

(** Lines written to standard output (the text of each [print], with its
    interpolated values). *)
Inductive line :=
| SafetyRulesLoadError
| SuspiciousDetected (kind : string)
| ActivatingProtocol
| ProtocolActivated
| SafetyEventSaveError (msg : string)
| SchedulerConfigError
| TakingBreak (minutes : Z)
| ResumingIn (remaining : Z)
| BreakCompleted
| TaskAdded (name : string) (interval : Z)
| RunningTask (name : string)
| TaskFailed (name : string) (msg : string)
| StartingScheduler
| OutsideHours
| StoppingScheduler.

(** What one HTTP call of [requests.Session] does: it returns a response or
    raises. An exception is given by the [except] clause of the inner [try]
    of [make_request] that catches it ([Timeout] before [ConnectionError]
    before [RequestException], as the clauses are ordered; [OtherException]
    when none of the three does) and by its text, [str(e)]. *)
Inductive exception_class :=
| Timeout
| ConnectionError
| RequestException
| OtherException.

Record raised := {
  caught_as : exception_class;
  text : string
}.

(** A decoded JSON document. *)
#[warnings="-register-all"]
Inductive json :=
| JNull
| JBool (b : bool)
| JNum (n : Z)
| JStr (s : string)
| JArr (items : list json)
| JObj (members : list (string * json)).

(** [response.content] is empty, or [response.json()] decodes it or raises. *)
Inductive content :=
| NoContent
| Content (decoded : json + raised).

Inductive attempt_result :=
| Response (status_code : Z) (body : content)
| Raises (e : raised).

(** What a call of a task callable does. *)
Inductive call_result :=
| Returns
| Fails (msg : string).

Record oracle := {
  (** the value of the n-th [datetime.now()] or [time.time()] *)
  clock : nat -> Z;
  (** the value of the n-th [random.random()], in [0, 1) *)
  rng : nat -> Q;
  (** the outcome of the n-th HTTP call *)
  transport : nat -> attempt_result;
  (** whether another thread calls [stop()] during the n-th [time.sleep] *)
  stop_request : nat -> bool
}.

Record world := {
  clock_reads : nat;
  random_reads : nat;
  http_calls : nat;
  task_calls : nat;
  slept : list Q;
  printed : list line;
  auto_schedule_json : option schedule_config;
  safety_rules_json : option safety_rules;
  (** the list [LOGS/safety_events.json] holds, when it exists and holds one *)
  safety_events_json : option (list safety_event);
  (** what reading or writing [LOGS/safety_events.json] raises, if anything:
      there is no directory [LOGS] to create the file in, the file exists
      and is not JSON or not a list, or it cannot be opened; the text is
      [str(e)] *)
  safety_events_fault : option string
}.

Definition M (A : Type) : Type := world -> A * world.

Definition ret {A : Type} (a : A) : M A := fun w => (a, w).

Definition bind {A B : Type} (c : M A) (k : A -> M B) : M B :=
  fun w => let (a, w1) := c w in k a w1.

Declare Scope m_scope.
Delimit Scope m_scope with m.
Notation "x <- c ;; k" := (bind c (fun x => k))
  (at level 100, c at next level, right associativity) : m_scope.
Notation "c ;;; k" := (bind c (fun _ => k))
  (at level 100, right associativity) : m_scope.
Local Open Scope m_scope.

Definition set_clock_reads (n : nat) (w : world) : world :=
  {| clock_reads := n; random_reads := random_reads w;
     http_calls := http_calls w; task_calls := task_calls w;
     slept := slept w; printed := printed w;
     auto_schedule_json := auto_schedule_json w;
     safety_rules_json := safety_rules_json w;
     safety_events_json := safety_events_json w;
     safety_events_fault := safety_events_fault w |}.

Definition set_random_reads (n : nat) (w : world) : world :=
  {| clock_reads := clock_reads w; random_reads := n;
     http_calls := http_calls w; task_calls := task_calls w;
     slept := slept w; printed := printed w;
     auto_schedule_json := auto_schedule_json w;
     safety_rules_json := safety_rules_json w;
     safety_events_json := safety_events_json w;
     safety_events_fault := safety_events_fault w |}.

Definition set_http_calls (n : nat) (w : world) : world :=
  {| clock_reads := clock_reads w; random_reads := random_reads w;
     http_calls := n; task_calls := task_calls w;
     slept := slept w; printed := printed w;
     auto_schedule_json := auto_schedule_json w;
     safety_rules_json := safety_rules_json w;
     safety_events_json := safety_events_json w;
     safety_events_fault := safety_events_fault w |}.

Definition set_task_calls (n : nat) (w : world) : world :=
  {| clock_reads := clock_reads w; random_reads := random_reads w;
     http_calls := http_calls w; task_calls := n;
     slept := slept w; printed := printed w;
     auto_schedule_json := auto_schedule_json w;
     safety_rules_json := safety_rules_json w;
     safety_events_json := safety_events_json w;
     safety_events_fault := safety_events_fault w |}.

Definition set_slept (l : list Q) (w : world) : world :=
  {| clock_reads := clock_reads w; random_reads := random_reads w;
     http_calls := http_calls w; task_calls := task_calls w;
     slept := l; printed := printed w;
     auto_schedule_json := auto_schedule_json w;
     safety_rules_json := safety_rules_json w;
     safety_events_json := safety_events_json w;
     safety_events_fault := safety_events_fault w |}.

Definition set_printed (l : list line) (w : world) : world :=
  {| clock_reads := clock_reads w; random_reads := random_reads w;
     http_calls := http_calls w; task_calls := task_calls w;
     slept := slept w; printed := l;
     auto_schedule_json := auto_schedule_json w;
     safety_rules_json := safety_rules_json w;
     safety_events_json := safety_events_json w;
     safety_events_fault := safety_events_fault w |}.

Definition set_safety_events_json (f : option (list safety_event)) (w : world) : world :=
  {| clock_reads := clock_reads w; random_reads := random_reads w;
     http_calls := http_calls w; task_calls := task_calls w;
     slept := slept w; printed := printed w;
     auto_schedule_json := auto_schedule_json w;
     safety_rules_json := safety_rules_json w;
     safety_events_json := f;
     safety_events_fault := safety_events_fault w |}.

Definition set_safety_events_fault (e : option string) (w : world) : world :=
  {| clock_reads := clock_reads w; random_reads := random_reads w;
     http_calls := http_calls w; task_calls := task_calls w;
     slept := slept w; printed := printed w;
     auto_schedule_json := auto_schedule_json w;
     safety_rules_json := safety_rules_json w;
     safety_events_json := safety_events_json w;
     safety_events_fault := e |}.

(** A fresh process: nothing asked, slept or printed yet, over the given
    files, with a directory [LOGS] in which the event file can be saved. *)
Definition boot (sched : option schedule_config) (rules : option safety_rules)
    (events : option (list safety_event)) : world :=
  {| clock_reads := 0; random_reads := 0; http_calls := 0; task_calls := 0;
     slept := []; printed := [];
     auto_schedule_json := sched; safety_rules_json := rules;
     safety_events_json := events; safety_events_fault := None |}.

Section Effects.
Variable E : oracle.

(** [datetime.now()] *)
Definition now : M Z :=
  fun w => (clock E (clock_reads w), set_clock_reads (S (clock_reads w)) w).

(** [random.random()] *)
Definition random : M Q :=
  fun w => (rng E (random_reads w), set_random_reads (S (random_reads w)) w).

(** [time.sleep(d)]: the answer is whether [stop()] was called meanwhile. *)
Definition sleep (d : Q) : M bool :=
  fun w => (stop_request E (List.length (slept w)), set_slept (slept w ++ [d]) w).

(** [print(l)] *)
Definition print (l : line) : M unit :=
  fun w => (tt, set_printed (printed w ++ [l]) w).
End Effects.

(** ** [safety_monitor.py]

    Every method of [SafetyMonitor] runs its body in a [try] whose handler
    prints and returns a failure value. The only statements of these bodies
    that can raise read or write the two files: a rules file that cannot be
    read or decoded is [None] here, and an event file that cannot be read,
    extended or written is a world with a [safety_events_fault]. On the
    typed records of this model nothing else raises, so the other handlers
    are never entered. The monitoring thread of [start_monitoring] only
    prints reports and is left out. *)

Module SafetyMonitor.

(** An entry of [safety_log]. *)
Record activity := {
  timestamp : Z;
  type : string;
  platform : string;
  details : list (string * string)
}.

(** An entry of [suspicious_activities]; [sa_type] is its key ["type"]. *)
Record suspicious_activity := {
  detected_at : Z;
  sa_type : string;
  activities_count : Z;
  recommendation : string
}.

Record monitor := {
  monitoring : bool;
  safety_log : list activity;
  suspicious_activities : list suspicious_activity
}.

Record report := {
  generated_at : Z;
  total_activities_monitored : Z;
  suspicious_activities_detected : Z;
  recent_suspicious_activities : list suspicious_activity;
  safety_status : string;
  recommendations : list string
}.

Definition set_safety_log (l : list activity) (self : monitor) : monitor :=
  {| monitoring := monitoring self; safety_log := l;
     suspicious_activities := suspicious_activities self |}.

Definition set_suspicious_activities (l : list suspicious_activity)
    (self : monitor) : monitor :=
  {| monitoring := monitoring self; safety_log := safety_log self;
     suspicious_activities := l |}.

Definition set_safety_status (s : string) (r : report) : report :=
  {| generated_at := generated_at r;
     total_activities_monitored := total_activities_monitored r;
     suspicious_activities_detected := suspicious_activities_detected r;
     recent_suspicious_activities := recent_suspicious_activities r;
     safety_status := s; recommendations := recommendations r |}.

Definition add_recommendation (s : string) (r : report) : report :=
  {| generated_at := generated_at r;
     total_activities_monitored := total_activities_monitored r;
     suspicious_activities_detected := suspicious_activities_detected r;
     recent_suspicious_activities := recent_suspicious_activities r;
     safety_status := safety_status r;
     recommendations := recommendations r ++ [s] |}.

(** [SafetyMonitor()] *)
Definition init : monitor :=
  {| monitoring := false; safety_log := []; suspicious_activities := [] |}.

Definition get_default_rules : safety_rules :=
  {| limits := {| max_posts_per_day := 50; min_delay_between_actions := 30;
                  max_actions_per_hour := 20; max_concurrent_actions := 5 |};
     measures := {| suspicious_activity_threshold := 10;
                    auto_suspend_on_detection := true;
                    rate_limiting := true |} |}.

Section Methods.
Variable E : oracle.

(** A file that cannot be opened or decoded is [None]. *)
Definition load_safety_rules : M safety_rules :=
  fun w =>
    match safety_rules_json w with
    | Some rules => (rules, w)
    | None => (print SafetyRulesLoadError ;;; ret get_default_rules) w
    end.

(** The comprehension of [check_suspicious_activity] and of
    [get_safety_report]:
    [[act for act in self.safety_log if datetime.now() - strptime(act['timestamp']) < timedelta(hours=1)]];
    the clock is read once for each entry. *)
Fixpoint within_last_hour (log : list activity) : M (list activity) :=
  match log with
  | [] => ret []
  | act :: rest =>
      t <- now E ;;
      kept <- within_last_hour rest ;;
      ret (if t - Py.strptime_seconds (timestamp act) <? Py.one_hour
           then act :: kept else kept)
  end.

(** The body reads the file when [os.path.exists] finds it, appends and
    writes; when any of this raises, nothing has been written yet (the
    file is opened for writing last, and [open] is what fails without the
    directory), and the handler prints and returns [False]. *)
Definition save_safety_event (ev : safety_event) : M bool :=
  fun w =>
    match safety_events_fault w with
    | Some msg => (print (SafetyEventSaveError msg) ;;; ret false) w
    | None =>
        let events := match safety_events_json w with
                      | Some evs => evs
                      | None => []
                      end in
        (true, set_safety_events_json (Some (events ++ [ev])) w)
    end.

Definition trigger_safety_protocol : M bool :=
  print ActivatingProtocol ;;;
  t <- now E ;;
  let ev := {| ev_timestamp := Py.strftime_seconds t;
               event := "safety_protocol_activated";
               action := "temporary_suspension";
               duration_minutes := 30 |} in
  save_safety_event ev ;;;
  print ProtocolActivated ;;;
  ret true.

Definition check_suspicious_activity (act : activity) (self : monitor)
    : M (bool * monitor) :=
  rules <- load_safety_rules ;;
  let threshold := suspicious_activity_threshold (measures rules) in
  recent_activities <- within_last_hour (safety_log self) ;;
  if threshold <? Py.len recent_activities then
    t <- now E ;;
    let found := {| detected_at := Py.strftime_seconds t;
                    sa_type := "high_frequency_activity";
                    activities_count := Py.len recent_activities;
                    recommendation := "Suspend operations temporarily" |} in
    let self := set_suspicious_activities
                  (suspicious_activities self ++ [found]) self in
    print (SuspiciousDetected (sa_type found)) ;;;
    (if auto_suspend_on_detection (measures rules)
     then trigger_safety_protocol else ret true) ;;;
    ret (true, self)
  else ret (false, self).

(** The dictionary [log_activity] builds from its arguments and the clock. *)
Definition new_activity (t : Z) (activity_type plat : string)
    (det : list (string * string)) : activity :=
  {| timestamp := Py.strftime_seconds t; type := activity_type;
     platform := plat; details := det |}.

Definition log_activity (activity_type plat : string)
    (det : list (string * string)) (self : monitor) : M (bool * monitor) :=
  t <- now E ;;
  let act := new_activity t activity_type plat det in
  let self := set_safety_log (safety_log self ++ [act]) self in
  let self := if 1000 <? Py.len (safety_log self)
              then set_safety_log (Py.slice_last 1000 (safety_log self)) self
              else self in
  r <- check_suspicious_activity act self ;;
  ret (true, snd r).

Definition get_safety_report (self : monitor) : M report :=
  t <- now E ;;
  let rep := {| generated_at := Py.strftime_seconds t;
                total_activities_monitored := Py.len (safety_log self);
                suspicious_activities_detected :=
                  Py.len (suspicious_activities self);
                recent_suspicious_activities :=
                  Py.slice_last 5 (suspicious_activities self);
                safety_status := "normal";
                recommendations := [] |} in
  let rep := match suspicious_activities self with
             | [] => rep
             | _ :: _ =>
                 add_recommendation "Review recent suspicious activities"
                   (set_safety_status "attention_required" rep)
             end in
  recent_hour_activities <- within_last_hour (safety_log self) ;;
  let rep := if 50 <? Py.len recent_hour_activities
             then add_recommendation
                    "Consider increasing delay between actions"
                    (set_safety_status "high_activity" rep)
             else rep in
  ret rep.

Definition reset_monitoring (self : monitor) : monitor :=
  set_suspicious_activities [] (set_safety_log [] self).

End Methods.

End SafetyMonitor.

(** ** [scheduler.py]

    As in the monitor, the handlers of the [try] statements are entered only
    where this model says so: for a configuration file that cannot be read
    and for a task callable that raises. An exception is an [Exception];
    [KeyboardInterrupt] is left out. *)

Module Scheduler.

(** A task dictionary. The callable is given by what its calls do: the
    argument is the number of task calls the process has made before. *)
Record task := {
  name : string;
  function : nat -> call_result;
  interval : Z;
  last_run : option Z
}.

Record scheduler := {
  is_running : bool;
  tasks : list task;
  break_mode : bool;
  last_break_time : option Z
}.

Definition set_is_running (b : bool) (self : scheduler) : scheduler :=
  {| is_running := b; tasks := tasks self; break_mode := break_mode self;
     last_break_time := last_break_time self |}.

Definition set_tasks (l : list task) (self : scheduler) : scheduler :=
  {| is_running := is_running self; tasks := l; break_mode := break_mode self;
     last_break_time := last_break_time self |}.

Definition set_break_mode (b : bool) (self : scheduler) : scheduler :=
  {| is_running := is_running self; tasks := tasks self; break_mode := b;
     last_break_time := last_break_time self |}.

Definition set_last_break_time (t : option Z) (self : scheduler) : scheduler :=
  {| is_running := is_running self; tasks := tasks self;
     break_mode := break_mode self; last_break_time := t |}.

Definition set_last_run (t : option Z) (tk : task) : task :=
  {| name := name tk; function := function tk; interval := interval tk;
     last_run := t |}.

(** [AutomationScheduler()] *)
Definition init : scheduler :=
  {| is_running := false; tasks := []; break_mode := false;
     last_break_time := None |}.

Definition get_default_config : schedule_config :=
  {| hours := {| start_time := "06:00"; end_time := "23:00";
                 oh_enabled := true |};
     break_schedule := [ {| after_minutes := 60; break_minutes := 15;
                            enabled := true |} ] |}.

(** What [should_take_break] returns: [False], [None] or a schedule. *)
Inductive break_decision :=
| RetFalse
| RetNone
| RetSchedule (schedule : break_rule).

Section Methods.
Variable E : oracle.

Definition load_config : M schedule_config :=
  fun w =>
    match auto_schedule_json w with
    | Some config => (config, w)
    | None => (print SchedulerConfigError ;;; ret get_default_config) w
    end.

Definition is_within_operational_hours : M bool :=
  config <- load_config ;;
  if negb (oh_enabled (hours config)) then ret true
  else
    t <- now E ;;
    let current_time := Py.strftime_HM t in
    ret (String.leb (start_time (hours config)) current_time
         && String.leb current_time (end_time (hours config))).

(** [minutes] minutes, in microseconds. *)
Definition minutes_us (minutes : Z) : Z := minutes * 60 * Py.usec.

Definition should_take_break (started : Z) (self : scheduler)
    : M break_decision :=
  if break_mode self then ret RetFalse
  else
    config <- load_config ;;
    current_time <- now E ;;
    let running := current_time - started in
    let due schedule :=
      enabled schedule
      && (minutes_us (after_minutes schedule) <=? running)
      && match last_break_time self with
         | None => true
         | Some lb => minutes_us (after_minutes schedule) <=? current_time - lb
         end in
    ret match find due (break_schedule config) with
        | Some schedule => RetSchedule schedule
        | None => RetNone
        end.

Definition stop (self : scheduler) : M scheduler :=
  print StoppingScheduler ;;;
  ret (set_is_running false self).

(** [time.sleep(seconds)] in the scheduler's thread: another thread may
    call [stop()] on the same object meanwhile. *)
Definition sleeping (seconds : Z) (self : scheduler) : M scheduler :=
  stopped <- sleep E (inject_Z seconds) ;;
  if stopped then stop self else ret self.

(** The loop [for remaining in range(break_minutes, 0, -1)], with
    [remaining] iterations to go. *)
Fixpoint countdown (remaining : nat) (self : scheduler) : M scheduler :=
  match remaining with
  | O => ret self
  | S fewer =>
      if negb (is_running self) then ret self
      else
        print (ResumingIn (Z.of_nat remaining)) ;;;
        self <- sleeping 60 self ;;
        countdown fewer self
  end.

Definition take_break (schedule : break_rule) (self : scheduler)
    : M scheduler :=
  let self := set_break_mode true self in
  print (TakingBreak (break_minutes schedule)) ;;;
  self <- countdown (Z.to_nat (break_minutes schedule)) self ;;
  if is_running self then
    print BreakCompleted ;;;
    t <- now E ;;
    ret (set_last_break_time (Some t) (set_break_mode false self))
  else ret self.

Definition add_task (task_name : string) (task_function : nat -> call_result)
    (interval_minutes : Z) (self : scheduler) : M scheduler :=
  let tk := {| name := task_name; function := task_function;
               interval := interval_minutes; last_run := None |} in
  let self := set_tasks (tasks self ++ [tk]) self in
  print (TaskAdded task_name interval_minutes) ;;;
  ret self.

(** [task['function']()] *)
Definition call (f : nat -> call_result) : M call_result :=
  fun w => (f (task_calls w), set_task_calls (S (task_calls w)) w).

(** The test of [run_tasks] on one task. *)
Definition is_due (current_time : Z) (tk : task) : bool :=
  match last_run tk with
  | None => true
  | Some t => interval tk * 60 * Py.usec <=? current_time - t
  end.

(** The body of the loop of [run_tasks], with its [try]. *)
Definition run_task (current_time : Z) (tk : task) : M task :=
  if is_due current_time tk then
    print (RunningTask (name tk)) ;;;
    r <- call (function tk) ;;
    match r with
    | Returns => ret (set_last_run (Some current_time) tk)
    | Fails msg => print (TaskFailed (name tk) msg) ;;; ret tk
    end
  else ret tk.

Fixpoint run_each (current_time : Z) (l : list task) : M (list task) :=
  match l with
  | [] => ret []
  | tk :: rest =>
      tk' <- run_task current_time tk ;;
      rest' <- run_each current_time rest ;;
      ret (tk' :: rest')
  end.

Definition run_tasks (self : scheduler) : M scheduler :=
  if break_mode self then ret self
  else
    inside <- is_within_operational_hours ;;
    if negb inside then ret self
    else
      current_time <- now E ;;
      l <- run_each current_time (tasks self) ;;
      ret (set_tasks l self).

(** One pass through the body of the [while] loop of [start]; the first
    component is the new value of the local [start_time]. *)
Definition start_pass (started : Z) (self : scheduler)
    : M (Z * scheduler) :=
  inside <- is_within_operational_hours ;;
  if negb inside then
    print OutsideHours ;;;
    self <- sleeping 300 self ;;
    ret (started, self)
  else
    decision <- should_take_break started self ;;
    match decision with
    | RetSchedule schedule =>
        self <- take_break schedule self ;;
        t <- now E ;;
        ret (t, self)
    | RetFalse | RetNone =>
        self <- run_tasks self ;;
        self <- sleeping 60 self ;;
        ret (started, self)
    end.

(** The [while self.is_running] loop, cut after [passes] passes. The
    boolean tells whether the loop has ended. *)
Fixpoint start_loop (passes : nat) (started : Z) (self : scheduler)
    : M (bool * scheduler) :=
  if negb (is_running self) then ret (true, self)
  else
    match passes with
    | O => ret (false, self)
    | S fewer =>
        r <- start_pass started self ;;
        start_loop fewer (fst r) (snd r)
    end.

Definition start (passes : nat) (self : scheduler) : M (bool * scheduler) :=
  print StartingScheduler ;;;
  let self := set_is_running true self in
  started <- now E ;;
  start_loop passes started self.
End Methods.

End Scheduler.

(** ** [api_client.py]

    [make_request] is modelled with its two [try] statements. The simulated
    actions, [execute_social_action] and [batch_execute_actions] have
    nothing to catch on requests that are dictionaries of strings. *)

Module APIClient.

(** The values stored in the result dictionaries. A [float] is a rational;
    the text of [isoformat()] is modelled by the datetime it prints. *)
Inductive value :=
| VNone
| VBool (b : bool)
| VStr (s : string)
| VFloat (q : Q)
| VIsoformat (d : Z).

(** The second component of what the methods return: a decoded document, a
    dictionary built by the client, or a message. *)
Inductive payload :=
| Document (doc : json)
| Dict (items : list (string * value))
| Message (msg : string).

(** An element of the list given to [batch_execute_actions]: a dictionary
    read with [.get], which gives [None] for a missing key. *)
Record action_request := {
  platform : option string;
  action_type : option string;
  target_url : option string;
  access_token : option string
}.

(** An element of the list [batch_execute_actions] returns. *)
Record outcome := {
  o_platform : option string;
  o_action_type : option string;
  success : bool;
  result : payload;
  timestamp : Z
}.

(** [c.upper()] on an ASCII letter. *)
Definition upper_ascii (c : ascii) : ascii :=
  let n := nat_of_ascii c in
  if (97 <=? n)%nat && (n <=? 122)%nat then ascii_of_nat (n - 32) else c.

(** A [str] is kept as its UTF-8 bytes, and [str.upper()] applies the full
    case mapping of Unicode. Outside ASCII, the characters whose upper
    case is made of ASCII letters are ten (Unicode 14): U+00DF, U+0131 and
    U+017F, of two bytes, and the ligatures U+FB00 to U+FB06, of three. *)
Definition upper_two_bytes (c1 c2 : ascii) : option string :=
  match N_of_ascii c1, N_of_ascii c2 with
  | 195, 159 => Some "SS"
  | 196, 177 => Some "I"
  | 197, 191 => Some "S"
  | _, _ => None
  end%N.

Definition upper_three_bytes (c1 c2 c3 : ascii) : option string :=
  match N_of_ascii c1, N_of_ascii c2, N_of_ascii c3 with
  | 239, 172, 128 => Some "FF"
  | 239, 172, 129 => Some "FI"
  | 239, 172, 130 => Some "FL"
  | 239, 172, 131 => Some "FFI"
  | 239, 172, 132 => Some "FFL"
  | 239, 172, 133 => Some "ST"
  | 239, 172, 134 => Some "ST"
  | _, _, _ => None
  end%N.

(** [s.upper()], on the ASCII letters and on those ten characters. Every
    other character outside ASCII is left as it is; its upper case holds a
    character outside ASCII as well. So [upper s] is [s.upper()] whenever
    one of the two is an ASCII string, and neither is one otherwise: the
    comparisons of [make_request] with ["GET"], ["POST"] and ["PUT"], its
    only use, are decided as in the source. *)
Fixpoint upper (s : string) : string :=
  match s with
  | EmptyString => EmptyString
  | String c1 rest1 =>
      let plain := String (upper_ascii c1) (upper rest1) in
      match rest1 with
      | EmptyString => plain
      | String c2 rest2 =>
          match upper_two_bytes c1 c2 with
          | Some u => String.append u (upper rest2)
          | None =>
              match rest2 with
              | EmptyString => plain
              | String c3 rest3 =>
                  match upper_three_bytes c1 c2 c3 with
                  | Some u => String.append u (upper rest3)
                  | None => plain
                  end
              end
          end
      end
  end.

(** [str(x)] for [x] a string or [None]. *)
Definition str_opt (x : option string) : string :=
  match x with
  | Some s => s
  | None => "None"
  end.

Definition value_of (x : option string) : value :=
  match x with
  | Some s => VStr s
  | None => VNone
  end.

(** [str(e)] for the [UnboundLocalError] of reading the local [x] before
    any assignment (the text of CPython 3.11 and later). *)
Definition unbound_local (x : string) : string :=
  String.append "cannot access local variable '"
    (String.append x "' where it is not associated with a value").

(** [int(x)] for a float: truncation towards zero. *)
Definition int_of_float (x : Q) : Z := Z.quot (Qnum x) (Zpos (Qden x)).

(** [round(x, 2)]: to the nearest hundredth, ties to the even one. *)
Definition round2 (x : Q) : Q :=
  let y := (x * inject_Z 100)%Q in
  let lo := Qfloor y in
  let rest := (y - inject_Z lo)%Q in
  let n := match (rest ?= 1 # 2)%Q with
           | Lt => lo
           | Gt => lo + 1
           | Eq => if Z.even lo then lo else lo + 1
           end in
  (inject_Z n / inject_Z 100)%Q.

(** [d[key] = v] on a dictionary kept in insertion order. *)
Fixpoint setitem (key : string) (v : value) (d : list (string * value))
    : list (string * value) :=
  match d with
  | [] => [(key, v)]
  | (k, x) :: rest =>
      if String.eqb k key then (k, v) :: rest
      else (k, x) :: setitem key v rest
  end.

Section Methods.
Variable E : oracle.

(** [time.time()] *)
Definition time_time : M Q :=
  t <- now E ;;
  ret (inject_Z t / inject_Z Py.usec)%Q.

(** [random.uniform(a, b)] is [a + (b - a) * random()]. *)
Definition uniform (a b : Q) : M Q :=
  r <- random E ;;
  ret (a + (b - a) * r)%Q.

(** One call of [self.session.get], [.post] or [.put]. *)
Definition send : M attempt_result :=
  fun w => (transport E (http_calls w), set_http_calls (S (http_calls w)) w).

(** How the body of the outer [try] of [make_request] ends: with a
    [return], or with an exception that leaves it. *)
Inductive completion :=
| Return (r : bool * payload)
| Raise (e : raised).

(** The handlers of the inner [try]: [None] stands for [continue], [Some c]
    for leaving the loop with [c]; an exception that no clause catches
    leaves the loop as it is. *)
Definition handle (e : raised) (attempt retries : Z)
    : M (option completion) :=
  match caught_as e with
  | OtherException => ret (Some (Raise e))
  | cls =>
      if attempt <? retries - 1 then
        sleep E (inject_Z (2 ^ attempt)) ;;;
        ret None
      else
        ret (Some (Return (false,
               match cls with
               | Timeout => Message "Request timeout"
               | ConnectionError => Message "Connection error"
               | _ => Message (String.append "Request error: " (text e))
               end)))
  end.

(** The [return] after the loop. It reads [response.status_code]: when the
    local [response] was never bound, this raises [UnboundLocalError]. *)
Definition after_loop (retries : Z) (response : option Z) : completion :=
  match response with
  | Some status =>
      Return (false,
              Message
                (String.append "Request failed after "
                   (String.append (Py.str_int retries)
                      (String.append " attempts. Status: "
                         (Py.str_int status)))))
  | None =>
      Raise {| caught_as := OtherException;
               text := unbound_local "response" |}
  end.

(** The loop [for attempt in range(retries)] with [remaining] iterations
    to go; [response] is the status of the response the local variable
    [response] holds, if it is bound. *)
Fixpoint request_loop (method : string) (retries : Z) (remaining : nat)
    (attempt : Z) (response : option Z) : M completion :=
  match remaining with
  | O => ret (after_loop retries response)
  | S fewer =>
      let m := upper method in
      if String.eqb m "GET" || String.eqb m "POST" || String.eqb m "PUT" then
        r <- send ;;
        match r with
        | Response status body =>
            if (200 <=? status) && (status <? 300) then
              match body with
              | NoContent => ret (Return (true, Document (JObj [])))
              | Content (inl doc) => ret (Return (true, Document doc))
              | Content (inr e) =>
                  h <- handle e attempt retries ;;
                  match h with
                  | Some c => ret c
                  | None =>
                      request_loop method retries fewer (attempt + 1)
                        (Some status)
                  end
              end
            else
              (if attempt <? retries - 1
               then sleep E (inject_Z (2 ^ attempt)) ;;; ret tt
               else ret tt) ;;;
              request_loop method retries fewer (attempt + 1) (Some status)
        | Raises e =>
            h <- handle e attempt retries ;;
            match h with
            | Some c => ret c
            | None =>
                request_loop method retries fewer (attempt + 1) response
            end
        end
      else
        ret (Return
               (false,
                Message (String.append "Unsupported HTTP method: " method)))
  end.

(** The outer handler: [except Exception as e] returns the failure with the
    text of [e]. *)
Definition outer_handler (c : completion) : bool * payload :=
  match c with
  | Return r => r
  | Raise e => (false, Message (String.append "Unexpected error: " (text e)))
  end.

Definition make_request (url method : string)
    (headers : list (string * string)) (data : option json) (retries : Z)
    : M (bool * payload) :=
  c <- request_loop method retries (Z.to_nat retries) 0 None ;;
  ret (outer_handler c).

(** The three [simulate_*_action] methods differ in the longest delay, the
    success rate and the prefix of the identifier. *)
Definition simulate (longest rate : Q) (prefix : string)
    (act : option string) : M (bool * payload) :=
  d <- uniform 1 longest ;;
  sleep E d ;;;
  r <- random E ;;
  if Qlt_le_dec r rate then
    t <- time_time ;;
    stamp <- now E ;;
    ret (true,
         Dict [("id", VStr (String.append prefix
                              (Py.str_int (int_of_float t))));
               ("success", VBool true);
               ("action", value_of act);
               ("timestamp", VIsoformat stamp)])
  else
    stamp <- now E ;;
    ret (false,
         Dict [("error", VStr "Simulated API error");
               ("code", VStr "API_ERROR");
               ("timestamp", VIsoformat stamp)]).

Definition simulate_facebook_action (act target token : option string) :=
  simulate 3 (9 # 10) "fb_" act.

Definition simulate_instagram_action (act target token : option string) :=
  simulate 4 (85 # 100) "ig_" act.

Definition simulate_twitter_action (act target token : option string) :=
  simulate 2 (80 # 100) "tw_" act.

Definition execute_social_action (plat act target token : option string)
    : M (bool * payload) :=
  started <- time_time ;;
  let simulated :=
    match plat with
    | Some "facebook" => Some (simulate_facebook_action act target token)
    | Some "instagram" => Some (simulate_instagram_action act target token)
    | Some "twitter" => Some (simulate_twitter_action act target token)
    | _ => None
    end in
  match simulated with
  | None =>
      ret (false,
           Message (String.append "Unsupported platform: " (str_opt plat)))
  | Some run =>
      r <- run ;;
      finished <- time_time ;;
      let response_time := (finished - started)%Q in
      ret (fst r,
           match snd r with
           | Dict items =>
               Dict (setitem "response_time" (VFloat (round2 response_time))
                       items)
           | other => other
           end)
  end.

(** The loop of [batch_execute_actions]; [results] is the list built so
    far. *)
Fixpoint batch_loop (actions : list action_request) (results : list outcome)
    : M (list outcome) :=
  match actions with
  | [] => ret results
  | a :: rest =>
      r <- execute_social_action (platform a) (action_type a)
             (target_url a) (access_token a) ;;
      stamp <- now E ;;
      let results :=
        results ++ [ {| o_platform := platform a;
                        o_action_type := action_type a;
                        success := fst r; result := snd r;
                        timestamp := stamp |} ] in
      pause <- uniform 1 2 ;;
      sleep E pause ;;;
      batch_loop rest results
  end.

Definition batch_execute_actions (actions : list action_request)
    : M (bool * list outcome) :=
  results <- batch_loop actions [] ;;
  ret (true, results).
End Methods.

End APIClient.


(** ** Vocabulary of the properties *)

Module MonitorProps.
Import SafetyMonitor.

(** One call of [log_activity] for each triple of [inputs], in order. *)
Fixpoint log_activities (E : oracle)
    (inputs : list (string * string * list (string * string)))
    (self : monitor) : M monitor :=
  match inputs with
  | [] => ret self
  | (activity_type, plat, det) :: rest =>
      r <- log_activity E activity_type plat det self ;;
      log_activities E rest (snd r)
  end.

(** The entries those calls insert, in order. *)
Fixpoint inserted_activities (E : oracle)
    (inputs : list (string * string * list (string * string)))
    (self : monitor) (w : world) : list activity :=
  match inputs with
  | [] => []
  | (activity_type, plat, det) :: rest =>
      new_activity (clock E (clock_reads w)) activity_type plat det ::
      (let (r, w1) := log_activity E activity_type plat det self w in
       inserted_activities E rest (snd r) w1)
  end.

(** The comprehension [within_last_hour] as a function of the number of
    clock reads made before it. *)
Fixpoint recent_at (E : oracle) (n : nat) (log : list activity)
    : list activity :=
  match log with
  | [] => []
  | act :: rest =>
      if clock E n - Py.strptime_seconds (timestamp act) <? Py.one_hour
      then act :: recent_at E (S n) rest else recent_at E (S n) rest
  end.

(** The rules [load_safety_rules] returns in a world. *)
Definition rules_in_force (w : world) : safety_rules :=
  match safety_rules_json w with
  | Some rules => rules
  | None => get_default_rules
  end.

Definition threshold_in_force (w : world) : Z :=
  suspicious_activity_threshold (measures (rules_in_force w)).

(** Any two clock reads are less than 3599 seconds apart, so that every
    entry logged during the run stays inside the trailing hour. *)
Definition within_window (E : oracle) : Prop :=
  forall i j, clock E j - clock E i < 3599 * Py.usec.

(** An entry whose timestamp was read from the clock. *)
Definition stamped (E : oracle) (act : activity) : Prop :=
  exists i, timestamp act = Py.strftime_seconds (clock E i).

(** The number of entries of the trailing hour that [get_safety_report]
    counts: the comprehension runs after the read for [generated_at]. *)
Definition trailing_hour_count (E : oracle) (self : monitor) (w : world) : Z :=
  Py.len (fst (within_last_hour E (safety_log self) (snd (now E w)))).

End MonitorProps.

Module SchedulerProps.
Import Scheduler.

(** What a tick makes of a task it dispatches at [cur], the call of its
    callable being call number [n] of the process: that call returned and
    [last_run] is [cur], or that call raised and the task is as it was. *)
Definition dispatched (cur : Z) (n : nat) (tk tk' : task) : Prop :=
  match function tk n with
  | Returns => tk' = set_last_run (Some cur) tk
  | Fails _ => tk' = tk
  end.

(** [last_run] does not move backward, for a task with a non-negative
    interval or when the clock has not run backward since the last run. *)
Definition not_backward (cur : Z) (tk tk' : task) : Prop :=
  forall a, last_run tk = Some a -> (0 <= interval tk \/ a <= cur) ->
  exists b, last_run tk' = Some b /\ a <= b.

(** What a tick at [cur] makes of one task, [n] task calls having been
    made before the tick comes to it. *)
Definition tick_step (cur : Z) (n : nat) (tk tk' : task) : Prop :=
  (is_due cur tk = true -> dispatched cur n tk tk') /\
  (is_due cur tk = false -> tk' = tk) /\
  not_backward cur tk tk'.

(** What a tick at [cur] makes of the tasks [l], in order, [n] task calls
    having been made before: the callable of each due task is called once,
    so the call for a task has the number [n] plus the number of due tasks
    before it. *)
Fixpoint tick_steps (cur : Z) (n : nat) (l l' : list task) : Prop :=
  match l, l' with
  | [], [] => True
  | tk :: rest, tk' :: rest' =>
      tick_step cur n tk tk' /\
      tick_steps cur (if is_due cur tk then S n else n) rest rest'
  | _, _ => False
  end.

(** Relative to [self0] and [w0]: still in break mode, with the same tasks,
    and no task callable invoked since. *)
Definition blocked (self0 : scheduler) (w0 : world) (self : scheduler)
    (w : world) : Prop :=
  break_mode self = true /\ tasks self = tasks self0 /\
  task_calls w = task_calls w0.

End SchedulerProps.

Module APIClientProps.
Import APIClient.

(** The status of a response outside 200..299. *)
Definition failed_status (a : attempt_result) : option Z :=
  match a with
  | Response status _ =>
      if (200 <=? status) && (status <? 300) then None else Some status
  | Raises _ => None
  end.

(** The methods [make_request] sends. *)
Definition supported (method : string) : bool :=
  let m := upper method in
  String.eqb m "GET" || String.eqb m "POST" || String.eqb m "PUT".

(** The failure returned when the retries are used up. *)
Definition exhausted (retries status : Z) : bool * payload :=
  (false,
   Message
     (String.append "Request failed after "
        (String.append (Py.str_int retries)
           (String.append " attempts. Status: " (Py.str_int status))))).

(** The pauses [2 ** attempt] for [count] attempts from [first] on. *)
Definition backoff (first count : nat) : list Q :=
  map (fun k => inject_Z (2 ^ Z.of_nat k)) (seq first count).

(** The outcome [o] is the one of the request [a]: it carries its platform
    and action type, and what executing it returned. *)
Definition answers (E : oracle) (a : action_request) (o : outcome) : Prop :=
  o_platform o = platform a /\
  o_action_type o = action_type a /\
  exists w, (success o, result o)
            = fst (execute_social_action E (platform a) (action_type a)
                     (target_url a) (access_token a) w).

End APIClientProps.

Module SystemProps.

(** A computation that neither reads nor writes [LOGS/safety_events.json]:
    run on a world with another content of the file, it returns the same
    and leaves that content. *)
Definition independent {A : Type} (c : M A) : Prop :=
  forall events w,
    c (set_safety_events_json events w)
    = (fst (c w), set_safety_events_json events (snd (c w))).

End SystemProps.

(** ** Scenarios *)

Module Scenario.

Definition noon : Z := 12 * 3600 * Py.usec.

(** It stays noon, the random generator answers 0, every HTTP call gets a
    500 and nobody calls [stop()]. *)
Definition at_noon : oracle :=
  {| clock := fun _ => noon; rng := fun _ => 0%Q;
     transport := fun _ => Response 500 NoContent;
     stop_request := fun _ => false |}.

(** As [at_noon], with a [stop()] during the third sleep. *)
Definition stop_in_third_minute : oracle :=
  {| clock := fun _ => noon; rng := fun _ => 0%Q;
     transport := fun _ => Response 500 NoContent;
     stop_request := fun n => Nat.eqb n 2 |}.

(** No configuration file, no event file. *)
Definition bare : world := boot None None None.

Definition likes (n : nat) : list (string * string * list (string * string)) :=
  repeat ("like", "facebook", []) n.

Definition quarter_hour : break_rule :=
  {| after_minutes := 60; break_minutes := 15; enabled := true |}.

(** A started scheduler with the task ["sync"], every 30 minutes. *)
Definition running_sync : Scheduler.scheduler :=
  Scheduler.set_is_running true
    (fst (Scheduler.add_task "sync" (fun _ => Returns) 30 Scheduler.init bare)).

(** The same with a callable that raises. *)
Definition failing_sync : Scheduler.scheduler :=
  Scheduler.set_is_running true
    (fst (Scheduler.add_task "sync" (fun _ => Fails "boom") 30
            Scheduler.init bare)).

(** The monitor and the world after eleven likes at noon. *)
Definition eleven_likes : SafetyMonitor.monitor * world :=
  MonitorProps.log_activities at_noon (likes 11) SafetyMonitor.init bare.

End Scenario.

(** ** The rest of [api_client.py] *)

Module APIClientRest.
Import APIClient.

(** [d.get(key)] on a dictionary kept as a list of items. *)
Fixpoint get {V : Type} (key : string) (d : list (string * V)) : option V :=
  match d with
  | [] => None
  | (k, v) :: rest => if String.eqb k key then Some v else get key rest
  end.

(** The table of [get_rate_limits]. *)
Definition rate_limits : list (string * list (string * Z)) :=
  [ ("facebook", [ ("requests_per_hour", 200); ("requests_per_day", 5000);
                   ("actions_per_minute", 60) ]);
    ("instagram", [ ("requests_per_hour", 150); ("requests_per_day", 4000);
                    ("actions_per_minute", 50) ]);
    ("twitter", [ ("requests_per_hour", 300); ("requests_per_day", 10000);
                  ("actions_per_minute", 80) ]) ].

(** [rate_limits.get(platform, {})] *)
Definition get_rate_limits (plat : string) : list (string * Z) :=
  match get plat rate_limits with
  | Some limits => limits
  | None => []
  end.

Section Methods.
Variable E : oracle.

Definition check_api_health (plat : option string) : M (bool * payload) :=
  sleep E 1 ;;;
  r <- random E ;;
  let is_healthy := if Qlt_le_dec r (95 # 100) then true else false in
  t <- uniform E (5 # 10) 2 ;;
  stamp <- now E ;;
  ret (is_healthy,
       Dict [("platform", value_of plat);
             ("status", VStr (if is_healthy then "healthy" else "unhealthy"));
             ("response_time", VFloat (round2 t));
             ("last_checked", VIsoformat stamp)]).
End Methods.

End APIClientRest.

(** ** Vocabulary of the further properties *)

Module MonitorTerms.
Import SafetyMonitor MonitorProps.

(** The log after one more call of [log_activity]. *)
Definition log_after (E : oracle) (ty pl : string)
    (det : list (string * string)) (self : monitor) (w : world)
    : list activity :=
  Py.slice_last 1000
    (safety_log self ++ [new_activity (clock E (clock_reads w)) ty pl det]).

(** The count of the trailing hour that this call of [log_activity]
    compares with the threshold. *)
Definition count_after (E : oracle) (ty pl : string)
    (det : list (string * string)) (self : monitor) (w : world) : Z :=
  Py.len (recent_at E (S (clock_reads w)) (log_after E ty pl det self w)).

(** The record [trigger_safety_protocol] writes at [t]. *)
Definition suspension (t : Z) : safety_event :=
  {| ev_timestamp := Py.strftime_seconds t;
     event := "safety_protocol_activated";
     action := "temporary_suspension";
     duration_minutes := 30 |}.

(** The records of the event file, none when it does not exist. *)
Definition events_on_file (w : world) : list safety_event :=
  match safety_events_json w with
  | Some events => events
  | None => []
  end.

(** Nothing keeps [save_safety_event] from reading and writing the event
    file: the directory [LOGS] exists, and the file, when it exists, holds
    a JSON list and can be written. *)
Definition can_save (w : world) : bool :=
  match safety_events_fault w with
  | None => true
  | Some _ => false
  end.

(** At every clock read from the [n]-th on, the entry is an hour old or
    more. *)
Definition expired (E : oracle) (n : nat) (act : activity) : Prop :=
  forall i, (n <= i)%nat ->
    Py.one_hour <= clock E i - Py.strptime_seconds (timestamp act).

(** At every clock read from the [n]-th on, an entry stamped at the [n]-th
    read is less than an hour old. *)
Definition stays_fresh (E : oracle) (n : nat) : Prop :=
  forall i, (n <= i)%nat ->
    clock E i - Py.strptime_seconds (Py.strftime_seconds (clock E n))
    < Py.one_hour.

End MonitorTerms.

Module SchedulerTerms.
Import Scheduler.

(** The time of day [h]:[m] as the configuration writes it, ["HH:MM"]. *)
Definition hm (h m : Z) : string :=
  String.append (Py.two_digits h) (String.append ":" (Py.two_digits m)).

(** The minute of the day of a datetime, from 0 to 1439. *)
Definition minute_of_day (d : Z) : Z := (d / (60 * Py.usec)) mod 1440.

(** The configuration [load_config] returns in a world. *)
Definition config_in_force (w : world) : schedule_config :=
  match auto_schedule_json w with
  | Some config => config
  | None => get_default_config
  end.

(** The test [should_take_break] makes on a rule at [cur], for a loop
    started at [started]. *)
Definition qualifies (cur started : Z) (self : scheduler)
    (schedule : break_rule) : bool :=
  enabled schedule
  && (after_minutes schedule * 60 * Py.usec <=? cur - started)
  && match last_break_time self with
     | None => true
     | Some lb => after_minutes schedule * 60 * Py.usec <=? cur - lb
     end.

(** A computation that leaves the part [f] of the world as it is. *)
Definition keeps {A B : Type} (f : world -> B) (c : M A) : Prop :=
  forall w, f (snd (c w)) = f w.

(** A pause of the scheduler, in seconds, as [time.sleep] receives it. *)
Definition pause (seconds : Z) : Q := inject_Z seconds.

(** The number of sleeps of a loop that sleeps once in each pass and ends
    when a [stop()] has arrived, over [passes] passes at most; [from] is
    the number of sleeps of the process before the loop. *)
Fixpoint sleeps_until_stop (E : oracle) (from passes : nat) : nat :=
  match passes with
  | O => O
  | S fewer =>
      if stop_request E from then 1%nat
      else S (sleeps_until_stop E (S from) fewer)
  end.

End SchedulerTerms.

Module APIClientTerms.
Import APIClient APIClientProps APIClientRest.

(** The failure an inner [except] clause returns when no attempt is left. *)
Definition inner_failure (e : raised) : bool * payload :=
  (false,
   match caught_as e with
   | Timeout => Message "Request timeout"
   | ConnectionError => Message "Connection error"
   | _ => Message (String.append "Request error: " (text e))
   end).

(** The exceptions the inner [try] catches. *)
Definition caught_inside (e : raised) : bool :=
  match caught_as e with
  | OtherException => false
  | _ => true
  end.

(** The outcomes of an attempt after which [make_request] tries again
    while attempts are left: a status outside 200..299, an exception that
    an inner clause catches, or a body of a 2xx response whose decoding
    raises such an exception. *)
Definition tried_again (a : attempt_result) : bool :=
  match a with
  | Response status body =>
      if (200 <=? status) && (status <? 300) then
        match body with
        | Content (inr e) => caught_inside e
        | _ => false
        end
      else true
  | Raises e => caught_inside e
  end.

(** What [make_request] returns when the last attempt left ends in [a]. *)
Definition last_failure (retries : Z) (a : attempt_result) : bool * payload :=
  match a with
  | Response status body =>
      if (200 <=? status) && (status <? 300) then
        match body with
        | Content (inr e) => inner_failure e
        | Content (inl doc) => (true, Document doc)
        | NoContent => (true, Document (JObj []))
        end
      else exhausted retries status
  | Raises e => inner_failure e
  end.

(** The world after [k] attempts that were tried again, the first of them
    being attempt number [attempt]. *)
Definition after_attempts (attempt k : nat) (w : world) : world :=
  set_slept (slept w ++ backoff attempt k)
    (set_http_calls (http_calls w + k) w).

(** What [make_request] returns when an attempt ends in [a] and [a] is not
    tried again: the decoded document of a 2xx response (the empty
    dictionary when it has no content), or the failure of the outer handler
    for an exception that no inner clause catches. *)
Definition decided (a : attempt_result) : bool * payload :=
  match a with
  | Response _ NoContent => (true, Document (JObj []))
  | Response _ (Content (inl doc)) => (true, Document doc)
  | Response _ (Content (inr e)) | Raises e =>
      (false, Message (String.append "Unexpected error: " (text e)))
  end.

(** The pauses of [backoff], in whole seconds. *)
Definition backoff_seconds (first count : nat) : list Z :=
  map (fun k => 2 ^ Z.of_nat k) (seq first count).

(** The platforms [execute_social_action] simulates, each with the longest
    delay, the success rate and the prefix of the identifiers of its
    simulation. *)
Definition platform_profile (s : string) : option (Q * Q * string) :=
  if String.eqb s "facebook" then Some (3%Q, 9 # 10, "fb_")
  else if String.eqb s "instagram" then Some (4%Q, 85 # 100, "ig_")
  else if String.eqb s "twitter" then Some (2%Q, 80 # 100, "tw_")
  else None.

Definition known_platform (plat : option string) : bool :=
  match plat with
  | Some s => match platform_profile s with Some _ => true | None => false end
  | None => false
  end.

(** A pause of one to four seconds. *)
Definition short_pause (d : Q) : Prop := (1 <= d)%Q /\ (d <= 4)%Q.

(** The requests of a batch that name a simulated platform. *)
Definition simulated_requests (actions : list action_request)
    : list action_request :=
  filter (fun a => known_platform (platform a)) actions.

(** The random generator answers in [0, 1). *)
Definition fair (E : oracle) : Prop :=
  forall n, (0 <= rng E n)%Q /\ (rng E n < 1)%Q.

End APIClientTerms.

(** ** Further scenarios *)

Module MoreScenarios.
Import Scenario.

(** It stays two o'clock in the morning (counted from the origin of time). *)
Definition at_two : oracle :=
  {| clock := fun _ => 2 * 3600 * Py.usec; rng := fun _ => 0%Q;
     transport := fun _ => Response 500 NoContent;
     stop_request := fun _ => false |}.

(** A monitor holding three entries stamped at the origin of time. *)
Definition stale_monitor : SafetyMonitor.monitor :=
  {| SafetyMonitor.monitoring := false;
     SafetyMonitor.safety_log :=
       repeat (SafetyMonitor.new_activity 0 "like" "facebook" []) 3;
     SafetyMonitor.suspicious_activities := [] |}.

(** The monitor after twelve likes at noon: two events. *)
Definition alarmed_monitor : SafetyMonitor.monitor :=
  fst (MonitorProps.log_activities at_noon (likes 12) SafetyMonitor.init bare).

(** A window from 22:00 to 06:00 and no break rule. *)
Definition night_shift : schedule_config :=
  {| hours := {| start_time := "22:00"; end_time := "06:00";
                 oh_enabled := true |};
     break_schedule := [] |}.

Definition night_world : world := boot (Some night_shift) None None.

(** The task ["sync"], every 30 minutes, never run. *)
Definition sync_task : Scheduler.task :=
  {| Scheduler.name := "sync"; Scheduler.function := fun _ => Returns;
     Scheduler.interval := 30; Scheduler.last_run := None |}.

(** As [at_noon], with a [stop()] during the first sleep. *)
Definition stop_at_once : oracle :=
  {| clock := fun _ => noon; rng := fun _ => 0%Q;
     transport := fun _ => Response 500 NoContent;
     stop_request := fun n => Nat.eqb n 0 |}.

(** Two timeouts, then a 200 with a document. *)
Definition third_time_lucky : oracle :=
  {| clock := fun _ => noon; rng := fun _ => 0%Q;
     transport := fun n =>
       if Nat.ltb n 2 then Raises {| caught_as := Timeout; text := "timed out" |}
       else Response 200 (Content (inl (JObj [("ok", JBool true)])));
     stop_request := fun _ => false |}.

(** Every call times out. *)
Definition always_timeout : oracle :=
  {| clock := fun _ => noon; rng := fun _ => 0%Q;
     transport := fun _ =>
       Raises {| caught_as := Timeout; text := "timed out" |};
     stop_request := fun _ => false |}.

(** Every call raises an exception that the inner handlers do not catch. *)
Definition always_crashing : oracle :=
  {| clock := fun _ => noon; rng := fun _ => 0%Q;
     transport := fun _ =>
       Raises {| caught_as := OtherException; text := "boom" |};
     stop_request := fun _ => false |}.

(** ["post"] written with a long s, U+017F, whose upper case is S. *)
Definition post_with_long_s : string :=
  String.append "po" (String "197"%char (String "191"%char "t")).

(** A process started where there is no directory [LOGS]. *)
Definition without_logs : world :=
  set_safety_events_fault
    (Some "[Errno 2] No such file or directory: 'LOGS/safety_events.json'")
    bare.

(** A like on the named platform. *)
Definition like_on (plat : string) : APIClient.action_request :=
  {| APIClient.platform := Some plat; APIClient.action_type := Some "like";
     APIClient.target_url := None; APIClient.access_token := None |}.

End MoreScenarios.

(** * Properties *)

(** ** The safety monitor *)

Module MonitorFacts.
Import SafetyMonitor MonitorProps Scenario.

Lemma slice_last_short {A : Type} (n : nat) (l : list A) :
  (List.length l <= n)%nat -> Py.slice_last n l = l.
Proof.
  intros H. unfold Py.slice_last.
  replace (List.length l - n)%nat with 0%nat by lia. reflexivity.
Qed.

Lemma slice_last_length {A : Type} (n : nat) (l : list A) :
  List.length (Py.slice_last n l) = Nat.min (List.length l) n.
Proof. unfold Py.slice_last. rewrite length_skipn. lia. Qed.

Lemma skipn_app_le {A : Type} (k : nat) (l r : list A) :
  (k <= List.length l)%nat -> skipn k (l ++ r) = skipn k l ++ r.
Proof.
  intros H. rewrite skipn_app.
  replace (k - List.length l)%nat with 0%nat by lia. reflexivity.
Qed.

(** Cutting to the last [n] before appending changes nothing after the
    next cut. *)
Lemma slice_last_app {A : Type} (n : nat) (l r : list A) :
  Py.slice_last n (Py.slice_last n l ++ r) = Py.slice_last n (l ++ r).
Proof.
  unfold Py.slice_last.
  rewrite <- skipn_app_le by lia.
  rewrite skipn_skipn. f_equal.
  rewrite length_skipn, !length_app. lia.
Qed.

Section Facts.
Variable E : oracle.

Lemma within_last_hour_world log w :
  snd (within_last_hour E log w)
  = set_clock_reads (clock_reads w + List.length log) w.
Proof.
  revert w. induction log as [|a log IH]; intros w; simpl.
  - destruct w; unfold set_clock_reads; simpl. f_equal. lia.
  - unfold bind, now. simpl.
    specialize (IH (set_clock_reads (S (clock_reads w)) w)).
    destruct (within_last_hour E log _) as [kept w1]. simpl in *.
    subst w1. unfold set_clock_reads. simpl. f_equal. lia.
Qed.

Lemma within_last_hour_recent log w :
  fst (within_last_hour E log w) = recent_at E (clock_reads w) log.
Proof.
  revert w. induction log as [|a log IH]; intros w; simpl; [reflexivity|].
  unfold bind, now. simpl.
  specialize (IH (set_clock_reads (S (clock_reads w)) w)).
  destruct (within_last_hour E log _) as [kept w1]. simpl in *.
  subst kept. reflexivity.
Qed.

Lemma load_safety_rules_fst w :
  fst (load_safety_rules w) = rules_in_force w.
Proof.
  unfold load_safety_rules, rules_in_force.
  destruct (safety_rules_json w); reflexivity.
Qed.

Lemma load_safety_rules_reads w :
  clock_reads (snd (load_safety_rules w)) = clock_reads w.
Proof.
  unfold load_safety_rules. destruct (safety_rules_json w); reflexivity.
Qed.

Lemma load_safety_rules_file w :
  safety_rules_json (snd (load_safety_rules w)) = safety_rules_json w.
Proof.
  unfold load_safety_rules.
  destruct (safety_rules_json w) eqn:Hf; simpl; [exact Hf | now rewrite Hf].
Qed.

(** The check leaves the log alone. *)
Lemma check_log act self w :
  safety_log (snd (fst (check_suspicious_activity E act self w)))
  = safety_log self.
Proof.
  unfold check_suspicious_activity, bind.
  destruct (load_safety_rules w) as [rules w1].
  destruct (within_last_hour E (safety_log self) w1) as [recent w2].
  destruct (_ <? _); [|reflexivity].
  unfold trigger_safety_protocol, save_safety_event, bind, now, print, ret.
  destruct (auto_suspend_on_detection _); [|reflexivity].
  simpl. destruct (safety_events_fault _); reflexivity.
Qed.

(** The check appends one event exactly when the count of the trailing hour
    is above the threshold. *)
Lemma check_events act self w :
  let recent := recent_at E (clock_reads w) (safety_log self) in
  suspicious_activities (snd (fst (check_suspicious_activity E act self w)))
  = if threshold_in_force w <? Py.len recent
    then suspicious_activities self ++
         [ {| detected_at :=
                Py.strftime_seconds
                  (clock E (clock_reads w + List.length (safety_log self)));
              sa_type := "high_frequency_activity";
              activities_count := Py.len recent;
              recommendation := "Suspend operations temporarily" |} ]
    else suspicious_activities self.
Proof.
  unfold check_suspicious_activity, bind, threshold_in_force.
  pose proof (load_safety_rules_fst w) as Hr.
  pose proof (load_safety_rules_reads w) as Hc.
  destruct (load_safety_rules w) as [rules w1]. simpl in Hr, Hc. subst rules.
  pose proof (within_last_hour_recent (safety_log self) w1) as Hk.
  pose proof (within_last_hour_world (safety_log self) w1) as Hw.
  destruct (within_last_hour E (safety_log self) w1) as [recent w2].
  simpl in Hk, Hw. rewrite Hc in Hk, Hw. subst recent w2. simpl.
  destruct (_ <? _); [|reflexivity].
  unfold trigger_safety_protocol, save_safety_event, bind, now, print, ret.
  destruct (auto_suspend_on_detection _); [|reflexivity].
  simpl. destruct (safety_events_fault _); reflexivity.
Qed.

Lemma check_rules act self w :
  safety_rules_json (snd (check_suspicious_activity E act self w))
  = safety_rules_json w.
Proof.
  unfold check_suspicious_activity, bind.
  pose proof (load_safety_rules_file w) as H1.
  destruct (load_safety_rules w) as [rules w1]. simpl in H1.
  pose proof (within_last_hour_world (safety_log self) w1) as Hw.
  destruct (within_last_hour E (safety_log self) w1) as [recent w2].
  simpl in Hw. subst w2.
  destruct (_ <? _); [|simpl; exact H1].
  unfold trigger_safety_protocol, save_safety_event, bind, now, print, ret.
  simpl. destruct (auto_suspend_on_detection _); [|simpl; exact H1].
  destruct (safety_events_fault _); simpl; exact H1.
Qed.

(** One insertion: append, then keep the last 1000. *)
Lemma log_activity_log ty pl det self w :
  safety_log (snd (fst (log_activity E ty pl det self w)))
  = Py.slice_last 1000
      (safety_log self ++ [new_activity (clock E (clock_reads w)) ty pl det]).
Proof.
  unfold log_activity, bind, now. simpl.
  match goal with |- context [check_suspicious_activity E ?a ?s ?w1] =>
    pose proof (check_log a s w1) as H;
    destruct (check_suspicious_activity E a s w1) as [[b s1] w2] end.
  simpl in *. rewrite H. clear H.
  destruct (1000 <? _) eqn:Hlen; simpl; [reflexivity|].
  symmetry. apply slice_last_short.
  apply Z.ltb_ge in Hlen. unfold Py.len in Hlen. lia.
Qed.

Lemma log_activity_events ty pl det self w :
  let log1 := Py.slice_last 1000
      (safety_log self ++ [new_activity (clock E (clock_reads w)) ty pl det]) in
  let recent := recent_at E (S (clock_reads w)) log1 in
  exists found,
    activities_count found = Py.len recent /\
    suspicious_activities (snd (fst (log_activity E ty pl det self w)))
    = if threshold_in_force w <? Py.len recent
      then suspicious_activities self ++ [found]
      else suspicious_activities self.
Proof.
  intros log1 recent.
  pose proof (log_activity_log ty pl det self w) as Hlog.
  unfold log_activity, bind, now in *. simpl in *.
  match goal with |- context [check_suspicious_activity E ?a ?s ?w1] =>
    pose proof (check_events a s w1) as H;
    pose proof (check_log a s w1) as H';
    destruct (check_suspicious_activity E a s w1) as [[b s1] w2] end.
  simpl in *. rewrite H' in Hlog.
  rewrite Hlog in H. fold log1 in H. fold recent in H.
  eexists. split; [|rewrite H].
  2:{ replace (threshold_in_force (set_clock_reads (S (clock_reads w)) w))
        with (threshold_in_force w) by reflexivity.
      destruct (1000 <? _); simpl; reflexivity. }
  reflexivity.
Qed.

Lemma log_activity_rules ty pl det self w :
  safety_rules_json (snd (log_activity E ty pl det self w))
  = safety_rules_json w.
Proof.
  unfold log_activity, bind, now. simpl.
  match goal with |- context [check_suspicious_activity E ?a ?s ?w1] =>
    pose proof (check_rules a s w1) as H;
    destruct (check_suspicious_activity E a s w1) as [[b s1] w2] end.
  simpl in *. exact H.
Qed.

Lemma inserted_length inputs : forall self w,
  List.length (inserted_activities E inputs self w) = List.length inputs.
Proof.
  induction inputs as [|[[ty pl] det] rest IH]; intros self w; simpl;
    [reflexivity|].
  destruct (log_activity E ty pl det self w) as [r w1]. now rewrite IH.
Qed.

(** After any run of insertions the log is the last 1000 of what it held
    and what was inserted. *)
Lemma log_activities_log inputs : forall self w,
  (List.length (safety_log self) <= 1000)%nat ->
  safety_log (fst (log_activities E inputs self w))
  = Py.slice_last 1000 (safety_log self ++ inserted_activities E inputs self w).
Proof.
  induction inputs as [|[[ty pl] det] rest IH]; intros self w Hlen; simpl.
  - rewrite app_nil_r. symmetry. now apply slice_last_short.
  - unfold bind.
    pose proof (log_activity_log ty pl det self w) as Hlog.
    destruct (log_activity E ty pl det self w) as [r w1]. simpl in Hlog.
    rewrite IH.
    + rewrite Hlog, slice_last_app, <- app_assoc. reflexivity.
    + rewrite Hlog, slice_last_length. lia.
Qed.

(** Inside the window every stamped entry is counted, whenever the clock is
    read. *)
Lemma recent_at_all log :
  within_window E -> Forall (stamped E) log ->
  forall n, recent_at E n log = log.
Proof.
  intros Hwin Hall. induction Hall as [|act log [i Hi] _ IH]; intros n;
    simpl; [reflexivity|].
  rewrite IH.
  replace (_ <? _) with true; [reflexivity|].
  symmetry. apply Z.ltb_lt.
  rewrite Hi. unfold Py.strptime_seconds, Py.strftime_seconds, Py.one_hour.
  specialize (Hwin i n).
  pose proof (Z.div_mod (clock E i) Py.usec) as Hd.
  pose proof (Z.mod_pos_bound (clock E i) Py.usec) as Hm.
  unfold Py.usec in *. lia.
Qed.

(** The events grow by one for each insertion that brings the log above the
    threshold. *)
Lemma events_count inputs : forall self w,
  within_window E -> Forall (stamped E) (safety_log self) ->
  0 <= threshold_in_force w ->
  (List.length (safety_log self) + List.length inputs <= 1000)%nat ->
  let t := Z.to_nat (threshold_in_force w) in
  let m := fst (log_activities E inputs self w) in
  (List.length (suspicious_activities m) + (List.length (safety_log self) - t)
   = List.length (suspicious_activities self)
     + (List.length (safety_log self) + List.length inputs - t))%nat.
Proof.
  induction inputs as [|[[ty pl] det] rest IH]; intros self w Hwin Hst Ht Hlen;
    simpl.
  - rewrite Nat.add_0_r. reflexivity.
  - unfold bind.
    pose proof (log_activity_log ty pl det self w) as Hlog.
    pose proof (log_activity_events ty pl det self w) as [found [_ Hev]].
    pose proof (log_activity_rules ty pl det self w) as Hrules.
    destruct (log_activity E ty pl det self w) as [[b self1] w1].
    simpl in Hlog, Hev, Hrules, Hlen.
    assert (Hshort :
      Py.slice_last 1000
        (safety_log self ++ [new_activity (clock E (clock_reads w)) ty pl det])
      = safety_log self ++ [new_activity (clock E (clock_reads w)) ty pl det]).
    { apply slice_last_short. rewrite length_app. simpl. lia. }
    rewrite Hshort in Hlog, Hev.
    assert (Hst1 : Forall (stamped E) (safety_log self1)).
    { rewrite Hlog. apply Forall_app. split; [exact Hst|].
      constructor; [|constructor]. exists (clock_reads w). reflexivity. }
    rewrite recent_at_all in Hev by (try rewrite <- Hlog; assumption).
    assert (Hthr : threshold_in_force w1 = threshold_in_force w).
    { unfold threshold_in_force, rules_in_force. now rewrite Hrules. }
    specialize (IH self1 w1 Hwin Hst1).
    rewrite Hthr in IH. specialize (IH Ht).
    rewrite Hlog, length_app in IH. simpl in IH.
    specialize (IH ltac:(lia)). simpl.
    rewrite Hev in IH. unfold Py.len in IH. rewrite length_app in IH.
    simpl in IH.
    destruct (_ <? _) eqn:Hcmp.
    + apply Z.ltb_lt in Hcmp. rewrite length_app in IH. simpl in IH. lia.
    + apply Z.ltb_ge in Hcmp. lia.
Qed.

(** C7. Starting from a fresh monitor, after any sequence of calls of
    [log_activity] the log holds at most 1000 entries, namely the last 1000
    of the entries inserted; after N >= 1000 calls it holds exactly 1000 and
    its oldest entry is the (N-999)-th inserted one (index N-1000 from 0).
    The sequence is arbitrary, so this holds after every insertion. *)
Theorem activity_ring_bounded_fifo inputs w :
  let m := fst (log_activities E inputs init w) in
  let entries := inserted_activities E inputs init w in
  (List.length (safety_log m) <= 1000)%nat /\
  safety_log m = Py.slice_last 1000 entries /\
  ((1000 <= List.length inputs)%nat ->
   List.length (safety_log m) = 1000%nat /\
   hd_error (safety_log m) = nth_error entries (List.length inputs - 1000)).
Proof.
  intros m entries.
  assert (Hlog : safety_log m = Py.slice_last 1000 entries).
  { unfold m, entries. rewrite log_activities_log by (simpl; lia).
    reflexivity. }
  assert (Hn : List.length entries = List.length inputs)
    by apply inserted_length.
  rewrite Hlog, slice_last_length, Hn.
  split; [lia|]. split; [reflexivity|]. intros Hbig. split; [lia|].
  unfold Py.slice_last. rewrite hd_error_skipn, Hn. reflexivity.
Qed.

(** C3, amended. [check_suspicious_activity] runs at every insertion and
    appends one event each time the count of the trailing hour is above the
    threshold: inserting threshold+k entries (at most 1000, threshold >= 0)
    within one hour into a fresh monitor yields k events, one for each
    entry beyond the threshold. *)
Theorem one_event_per_entry_beyond_threshold inputs w (k : nat) :
  within_window E ->
  0 <= threshold_in_force w ->
  List.length inputs = (Z.to_nat (threshold_in_force w) + k)%nat ->
  (List.length inputs <= 1000)%nat ->
  List.length
    (suspicious_activities (fst (log_activities E inputs init w))) = k.
Proof.
  intros Hwin Ht Hn Hmax.
  pose proof (events_count inputs init w Hwin (Forall_nil _) Ht) as H.
  simpl in H. specialize (H Hmax). lia.
Qed.

(** C4, amended. The status of the report is ["high_activity"] whenever the
    count of the trailing hour is above 50, whether or not suspicious events
    exist; otherwise it is ["attention_required"] when suspicious events
    exist, and ["normal"] when none does. *)
Theorem report_status_high_activity_first self w :
  safety_status (fst (get_safety_report E self w))
  = if 50 <? trailing_hour_count E self w then "high_activity"
    else match suspicious_activities self with
         | [] => "normal"
         | _ :: _ => "attention_required"
         end.
Proof.
  unfold get_safety_report, trailing_hour_count, bind. simpl.
  destruct (within_last_hour E (safety_log self) _) as [recent w1]. simpl.
  destruct (50 <? Py.len recent); [reflexivity|].
  destruct (suspicious_activities self); reflexivity.
Qed.

End Facts.

(** A thousand likes at noon fill the ring; its oldest entry is the first
    one inserted. *)
Lemma ring_of_a_thousand_likes :
  List.length
    (safety_log (fst (log_activities at_noon (likes 1000) init bare)))
  = 1000%nat /\
  hd_error (safety_log (fst (log_activities at_noon (likes 1000) init bare)))
  = nth_error (inserted_activities at_noon (likes 1000) init bare)
      (List.length (likes 1000) - 1000).
Proof.
  destruct (activity_ring_bounded_fifo at_noon (likes 1000) bare)
    as [_ [_ H]].
  apply H. unfold likes. rewrite repeat_length. apply le_n.
Defined.

(** With the default threshold of 10, twelve likes within the hour yield
    two events, not one. *)
Lemma twelve_likes_two_events :
  List.length
    (suspicious_activities (fst (log_activities at_noon (likes 12) init bare)))
  <> 1%nat.
Proof. vm_compute. discriminate. Qed.

Lemma twelve_likes_two_beyond_threshold :
  List.length
    (suspicious_activities (fst (log_activities at_noon (likes 12) init bare)))
  = 2%nat.
Proof.
  apply (one_event_per_entry_beyond_threshold at_noon (likes 12) bare 2).
  - intros i j. vm_compute. reflexivity.
  - vm_compute. discriminate.
  - reflexivity.
  - vm_compute. lia.
Defined.

(** After 51 likes within the hour suspicious events exist, and the report
    says ["high_activity"], not ["attention_required"]. *)
Lemma high_activity_hides_attention_required :
  let after := log_activities at_noon (likes 51) init bare in
  let status :=
    safety_status (fst (get_safety_report at_noon (fst after) (snd after))) in
  suspicious_activities (fst after) <> [] /\
  status = "high_activity" /\
  status <> "attention_required".
Proof. vm_compute. repeat split; discriminate. Qed.

End MonitorFacts.

(** ** The scheduler *)

Module SchedulerFacts.
Import Scheduler SchedulerProps Scenario.

Section Facts.
Variable E : oracle.

(** C5, amended. [add_task] rejects nothing: for every name and every
    interval, also a name already registered and an interval of zero or
    less, it appends the new task, with no last run, at the end of the task
    list, which grows by one. *)
Theorem add_task_always_appends task_name f minutes self w :
  tasks (fst (add_task task_name f minutes self w))
  = tasks self ++ [ {| name := task_name; function := f;
                       interval := minutes; last_run := None |} ] /\
  List.length (tasks (fst (add_task task_name f minutes self w)))
  = S (List.length (tasks self)).
Proof.
  split; [reflexivity|]. simpl. rewrite length_app. simpl. lia.
Qed.

(** The body of the loop of [run_tasks] on one task. *)
Lemma run_task_step cur tk w :
  tick_step cur (task_calls w) tk (fst (run_task cur tk w)) /\
  task_calls (snd (run_task cur tk w))
  = (if is_due cur tk then S (task_calls w) else task_calls w).
Proof.
  unfold tick_step, dispatched, run_task, bind, call, print. simpl.
  destruct (is_due cur tk) eqn:Hdue.
  - destruct (function tk (task_calls w)) as [|msg] eqn:Hf; simpl.
    + split; [|reflexivity]. split; [|split]; [| discriminate |].
      * intros _. reflexivity.
      * intros a Ha Hor. exists cur. split; [reflexivity|].
        unfold is_due in Hdue. rewrite Ha in Hdue.
        apply Z.leb_le in Hdue. unfold Py.usec in Hdue.
        destruct Hor; lia.
    + split; [|reflexivity]. split; [|split]; [| discriminate |].
      * intros _. reflexivity.
      * intros a Ha _. exists a. split; [exact Ha | lia].
  - simpl. split; [|reflexivity]. split; [discriminate|].
    split; [reflexivity|].
    intros a Ha _. exists a. split; [exact Ha | lia].
Qed.

Lemma run_each_steps cur l : forall w,
  tick_steps cur (task_calls w) l (fst (run_each cur l w)).
Proof.
  induction l as [|tk rest IH]; intros w; simpl; [exact I|].
  unfold bind.
  pose proof (run_task_step cur tk w) as [Hstep Hcalls].
  destruct (run_task cur tk w) as [tk' w1]. simpl in Hstep, Hcalls.
  specialize (IH w1). rewrite Hcalls in IH.
  destruct (run_each cur rest w1) as [rest' w2]. simpl in *.
  split; assumption.
Qed.

Lemma load_config_calls w :
  task_calls (snd (load_config w)) = task_calls w.
Proof. unfold load_config. destruct (auto_schedule_json w); reflexivity. Qed.

Lemma within_hours_calls w :
  task_calls (snd (is_within_operational_hours E w)) = task_calls w.
Proof.
  unfold is_within_operational_hours, bind.
  pose proof (load_config_calls w) as H.
  destruct (load_config w) as [config w1]. simpl in H.
  destruct (negb _); simpl; exact H.
Qed.

(** C6, amended. In a tick that runs (not in break mode, inside the
    operational hours), with [current_time] the time the tick reads: each
    task that is not due is left as it is; each task that is due is
    dispatched, and its [last_run] becomes [current_time] when the call the
    tick makes of its callable returns, while a call that raises, which
    [run_tasks] catches, leaves the task and its [last_run] as they were.
    The call made for a task is the one numbered by the calls made before
    the tick and the due tasks before it in the list. A [last_run] never
    moves backward, for a task with a non-negative interval or while the
    clock does not run backward. *)
Theorem last_run_set_on_success_only self w :
  break_mode self = false ->
  fst (is_within_operational_hours E w) = true ->
  let current_time :=
    clock E (clock_reads (snd (is_within_operational_hours E w))) in
  tick_steps current_time (task_calls w)
    (tasks self) (tasks (fst (run_tasks E self w))).
Proof.
  intros Hbreak Hin current_time.
  unfold run_tasks, bind. rewrite Hbreak.
  unfold current_time. clear current_time.
  pose proof (within_hours_calls w) as Hcalls.
  destruct (is_within_operational_hours E w) as [inside w1].
  simpl in Hin, Hcalls. subst inside. simpl.
  pose proof (run_each_steps (clock E (clock_reads w1)) (tasks self)
                (set_clock_reads (S (clock_reads w1)) w1)) as H.
  destruct (run_each _ _ _) as [l w2]. simpl in *.
  rewrite Hcalls in H. exact H.
Qed.

Lemma countdown_not_running n self w :
  is_running self = false -> countdown E n self w = (self, w).
Proof. intros H. destruct n; simpl; [|rewrite H]; reflexivity. Qed.

(** A countdown during which [stop()] first arrives in sleep number [i]
    ends after that sleep, with [is_running] cleared and nothing else
    changed. *)
Lemma countdown_stopped n : forall self w i,
  is_running self = true ->
  (i < n)%nat ->
  (forall j, (j < i)%nat ->
     stop_request E (List.length (slept w) + j) = false) ->
  stop_request E (List.length (slept w) + i) = true ->
  fst (countdown E n self w) = set_is_running false self /\
  List.length (slept (snd (countdown E n self w)))
  = (List.length (slept w) + i + 1)%nat.
Proof.
  induction n as [|n IH]; intros self w i Hrun Hi Hquiet Hstop; [lia|].
  simpl. rewrite Hrun. simpl.
  unfold bind, print, sleeping, bind, sleep. simpl.
  destruct i as [|i].
  - rewrite Nat.add_0_r in Hstop. rewrite Hstop.
    unfold stop, bind, print, ret. simpl.
    rewrite countdown_not_running by reflexivity. simpl.
    rewrite length_app. simpl. split; [reflexivity | lia].
  - pose proof (Hquiet 0%nat ltac:(lia)) as H0.
    rewrite Nat.add_0_r in H0. rewrite H0. unfold ret.
    match goal with |- context [countdown E n self ?w1] =>
      specialize (IH self w1 i Hrun ltac:(lia)) end.
    simpl in IH. rewrite length_app in IH. simpl in IH.
    destruct IH as [IH1 IH2].
    + intros j Hj. specialize (Hquiet (S j) ltac:(lia)).
      rewrite <- Hquiet. f_equal. lia.
    + rewrite <- Hstop. f_equal. lia.
    + split; [exact IH1 | rewrite IH2; lia].
Qed.

Lemma take_break_stopped schedule self w i :
  is_running self = true ->
  (i < Z.to_nat (break_minutes schedule))%nat ->
  (forall j, (j < i)%nat ->
     stop_request E (List.length (slept w) + j) = false) ->
  stop_request E (List.length (slept w) + i) = true ->
  fst (take_break E schedule self w)
  = set_is_running false (set_break_mode true self) /\
  List.length (slept (snd (take_break E schedule self w)))
  = (List.length (slept w) + i + 1)%nat.
Proof.
  intros Hrun Hi Hquiet Hstop.
  unfold take_break, bind, print. simpl.
  match goal with |- context [countdown E ?n ?s ?w1] =>
    pose proof (countdown_stopped n s w1 i Hrun Hi Hquiet Hstop) as [H1 H2];
    destruct (countdown E n s w1) as [s1 w2] end.
  simpl in H1, H2. subst s1. simpl. split; [reflexivity | exact H2].
Qed.

Lemma sleeping_blocked self0 w0 d self w :
  blocked self0 w0 self w ->
  blocked self0 w0 (fst (sleeping E d self w)) (snd (sleeping E d self w)).
Proof.
  intros [Hb [Ht Hc]]. unfold sleeping, bind, sleep, stop, bind, print, ret.
  simpl. destruct (stop_request E _); simpl; repeat split; assumption.
Qed.

(** In break mode a pass of the loop neither takes a break nor runs a
    task. *)
Lemma start_pass_blocked self0 w0 started self w :
  blocked self0 w0 self w ->
  blocked self0 w0 (snd (fst (start_pass E started self w)))
    (snd (start_pass E started self w)).
Proof.
  intros [Hb [Ht Hc]]. unfold start_pass, bind.
  pose proof (within_hours_calls w) as Hw.
  destruct (is_within_operational_hours E w) as [inside w1]. simpl in Hw.
  destruct inside; simpl.
  - unfold should_take_break, run_tasks. rewrite Hb. unfold ret.
    pose proof (sleeping_blocked self0 w0 60 self w1) as Hs.
    destruct (sleeping E 60 self w1) as [s2 w2]. simpl in *.
    apply Hs. repeat split; congruence.
  - unfold print. simpl.
    match goal with |- context [sleeping E 300 self ?w2] =>
      pose proof (sleeping_blocked self0 w0 300 self w2) as Hs;
      destruct (sleeping E 300 self w2) as [s3 w3] end.
    simpl in *. apply Hs. repeat split; simpl; congruence.
Qed.

Lemma start_loop_blocked self0 w0 passes : forall started self w,
  blocked self0 w0 self w ->
  blocked self0 w0 (snd (fst (start_loop E passes started self w)))
    (snd (start_loop E passes started self w)).
Proof.
  induction passes as [|passes IH]; intros started self w Hb; simpl.
  - destruct (negb (is_running self)); exact Hb.
  - destruct (negb (is_running self)); [exact Hb|].
    unfold bind.
    pose proof (start_pass_blocked self0 w0 started self w Hb) as Hp.
    destruct (start_pass E started self w) as [[st s1] w1]. simpl in *.
    apply IH. exact Hp.
Qed.

Lemma start_blocked passes self w :
  break_mode self = true ->
  blocked self w (snd (fst (start E passes self w)))
    (snd (start E passes self w)).
Proof.
  intros Hb. unfold start, bind, print, now. simpl.
  apply start_loop_blocked. repeat split; assumption.
Qed.

End Facts.

(** C9. Let [stop()] first arrive during sleep number [i] of the countdown
    of [take_break] (counting from 0, over a break of more than [i]
    minutes) on a running scheduler. The countdown ends after that sleep,
    [i + 1] sleeps in all; [break_mode] is left [True], [last_break_time]
    is not set and [is_running] is [False]. On that same object, [start]
    dispatches nothing however long it runs: after any number of passes of
    its loop, in any world and whatever the clock, [break_mode] is still
    [True], the tasks and their [last_run] are as they were, and no task
    callable has been invoked. *)
Theorem stop_during_break_blocks_restart (E : oracle) schedule self w i :
  is_running self = true ->
  (i < Z.to_nat (break_minutes schedule))%nat ->
  (forall j, (j < i)%nat ->
     stop_request E (List.length (slept w) + j) = false) ->
  stop_request E (List.length (slept w) + i) = true ->
  let stopped := fst (take_break E schedule self w) in
  break_mode stopped = true /\
  last_break_time stopped = last_break_time self /\
  is_running stopped = false /\
  List.length (slept (snd (take_break E schedule self w)))
  = (List.length (slept w) + i + 1)%nat /\
  forall (E' : oracle) (passes : nat) (w' : world),
    let again := start E' passes stopped w' in
    break_mode (snd (fst again)) = true /\
    tasks (snd (fst again)) = tasks self /\
    task_calls (snd again) = task_calls w'.
Proof.
  intros Hrun Hi Hquiet Hstop stopped.
  destruct (take_break_stopped E schedule self w i Hrun Hi Hquiet Hstop)
    as [H1 H2].
  unfold stopped. rewrite H1. simpl.
  repeat split; try reflexivity; try exact H2.
  all: pose proof (start_blocked E' passes
         (set_is_running false (set_break_mode true self)) w' eq_refl)
         as [Hb [Ht Hc]]; assumption.
Qed.

(** Registering ["sync"] again, or a task with the interval 0 or -5,
    changes the task list. *)
Lemma duplicate_and_non_positive_tasks_accepted :
  tasks (fst (add_task "sync" (fun _ => Returns) 45 running_sync bare))
  <> tasks running_sync /\
  tasks (fst (add_task "other" (fun _ => Returns) 0 running_sync bare))
  <> tasks running_sync /\
  tasks (fst (add_task "other" (fun _ => Returns) (-5) running_sync bare))
  <> tasks running_sync.
Proof.
  repeat split; intros H; apply (f_equal (@List.length task)) in H;
    discriminate H.
Qed.

(** At noon the task ["sync"], never run, is dispatched; its callable
    raises, the failure is caught and printed, and [last_run] is still
    [None]. *)
Lemma failed_task_keeps_last_run :
  let after := run_tasks at_noon failing_sync bare in
  In (RunningTask "sync") (printed (snd after)) /\
  In (TaskFailed "sync" "boom") (printed (snd after)) /\
  map last_run (tasks (fst after)) = [None] /\
  map last_run (tasks (fst after)) <> [Some noon].
Proof.
  vm_compute. repeat split; try discriminate.
  - right. left. reflexivity.
  - right. right. left. reflexivity.
Qed.

Lemma sync_runs_at_noon :
  tick_steps
    (clock at_noon
       (clock_reads (snd (is_within_operational_hours at_noon bare))))
    (task_calls bare)
    (tasks running_sync) (tasks (fst (run_tasks at_noon running_sync bare))).
Proof.
  apply (last_run_set_on_success_only at_noon running_sync bare).
  - reflexivity.
  - vm_compute. reflexivity.
Defined.

Lemma stop_in_third_minute_of_break :
  let stopped :=
    fst (take_break stop_in_third_minute quarter_hour running_sync bare) in
  break_mode stopped = true /\
  last_break_time stopped = last_break_time running_sync /\
  is_running stopped = false /\
  List.length
    (slept (snd (take_break stop_in_third_minute quarter_hour running_sync
                   bare)))
  = (List.length (slept bare) + 2 + 1)%nat /\
  forall (E' : oracle) (passes : nat) (w' : world),
    let again := start E' passes stopped w' in
    break_mode (snd (fst again)) = true /\
    tasks (snd (fst again)) = tasks running_sync /\
    task_calls (snd again) = task_calls w'.
Proof.
  apply (stop_during_break_blocks_restart stop_in_third_minute quarter_hour
           running_sync bare 2).
  - reflexivity.
  - vm_compute. lia.
  - intros j Hj. destruct j as [|[|j]]; [reflexivity | reflexivity | lia].
  - reflexivity.
Defined.

End SchedulerFacts.

(** ** The API client *)

Module APIClientFacts.
Import APIClient APIClientProps Scenario.

Section Facts.
Variable E : oracle.

(** The loop when every remaining call gets a response outside 200..299:
    every iteration sends, all but the last one pause, and the statement
    after the loop reports the last status. *)
Lemma request_loop_all_fail method retries remaining :
  forall attempt response w,
    supported method = true ->
    Z.of_nat (attempt + remaining) = retries ->
    (forall k, (k < remaining)%nat ->
       failed_status (transport E (http_calls w + k)) <> None) ->
    let r := request_loop E method retries remaining (Z.of_nat attempt)
               response w in
    http_calls (snd r) = (http_calls w + remaining)%nat /\
    slept (snd r) = slept w ++ backoff attempt (remaining - 1) /\
    fst r = after_loop retries
              match remaining with
              | O => response
              | S last => failed_status (transport E (http_calls w + last))
              end.
Proof.
  induction remaining as [|fewer IH]; intros attempt response w Hm Hn Hfail.
  - simpl. rewrite Nat.add_0_r, app_nil_r. auto.
  - simpl. unfold supported in Hm. rewrite Hm.
    unfold bind, send. simpl.
    pose proof (Hfail 0%nat ltac:(lia)) as H0. rewrite Nat.add_0_r in H0.
    destruct (transport E (http_calls w)) as [status body|e] eqn:Ht;
      simpl in H0; [|congruence].
    destruct ((200 <=? status) && (status <? 300)) eqn:Hok; [congruence|].
    clear H0.
    assert (Hnext : forall w1, http_calls w1 = S (http_calls w) ->
              forall k, (k < fewer)%nat ->
              failed_status (transport E (http_calls w1 + k)) <> None).
    { intros w1 Hw1 k Hk. rewrite Hw1.
      replace (S (http_calls w) + k)%nat with (http_calls w + S k)%nat by lia.
      apply Hfail. lia. }
    replace (Z.of_nat attempt + 1) with (Z.of_nat (S attempt)) by lia.
    destruct (Z.of_nat attempt <? retries - 1) eqn:Hlt.
    + apply Z.ltb_lt in Hlt.
      destruct fewer as [|fewer']; [exfalso; clear - Hn Hlt; lia|].
      unfold sleep, ret. simpl bind.
      match goal with |- context [request_loop E method retries _ _ _ ?w1] =>
        specialize (IH (S attempt) (Some status) w1 Hm ltac:(lia)
                      (Hnext w1 eq_refl)) end.
      cbv zeta in IH. destruct IH as [IH1 [IH2 IH3]].
      cbv zeta. rewrite IH1, IH2, IH3. simpl.
      rewrite <- app_assoc. simpl.
      repeat split; try lia.
      * rewrite Nat.sub_0_r. reflexivity.
      * rewrite Nat.add_succ_r. reflexivity.
    + apply Z.ltb_ge in Hlt.
      destruct fewer as [|fewer']; [|exfalso; clear - Hn Hlt; lia].
      unfold ret. simpl. rewrite !Nat.add_0_r, Ht. simpl. rewrite Hok.
      rewrite app_nil_r. repeat split; lia.
Qed.

(** C2, amended. A response outside 200..299 is retried like a transient
    failure. For a request with a method [make_request] sends (GET, POST or
    PUT) and [retries] >= 1: when each of the next [retries] calls gets such
    a response, [make_request] makes all [retries] calls, pauses
    [2 ** attempt] seconds after each but the last, and then returns the
    failure naming the last status. *)
Theorem failed_response_is_retried url method headers data retries w :
  supported method = true ->
  1 <= retries ->
  (forall k, (k < Z.to_nat retries)%nat ->
     failed_status (transport E (http_calls w + k)) <> None) ->
  let r := make_request E url method headers data retries w in
  http_calls (snd r) = (http_calls w + Z.to_nat retries)%nat /\
  slept (snd r) = slept w ++ backoff 0 (Z.to_nat retries - 1) /\
  exists status,
    failed_status (transport E (http_calls w + (Z.to_nat retries - 1)))
    = Some status /\
    fst r = exhausted retries status.
Proof.
  intros Hm Hn Hfail r.
  pose proof (request_loop_all_fail method retries (Z.to_nat retries)
                0%nat None w Hm ltac:(lia) Hfail) as H.
  cbv zeta in H. simpl Z.of_nat in H.
  unfold r, make_request, bind.
  destruct (request_loop E method retries (Z.to_nat retries) 0 None w)
    as [c w1].
  simpl in H. destruct H as [H1 [H2 H3]]. simpl.
  split; [exact H1|]. split; [exact H2|].
  destruct (Z.to_nat retries) as [|last] eqn:Hr; [lia|].
  replace (S last - 1)%nat with last by lia.
  specialize (Hfail last ltac:(lia)).
  destruct (failed_status (transport E (http_calls w + last))) as [status|];
    [|congruence].
  exists status. split; [reflexivity|]. subst c. reflexivity.
Qed.

(** C10. With [retries] <= 0 the loop of [make_request] has no iteration:
    no HTTP call is made and nothing else happens in the world, and reading
    the unbound [response] after the loop is caught by the outer handler,
    so the call returns the pair of [False] and a message instead of
    raising. *)
Theorem no_retries_no_attempt url method headers data retries w :
  retries <= 0 ->
  make_request E url method headers data retries w
  = ((false,
      Message (String.append "Unexpected error: " (unbound_local "response"))),
     w).
Proof.
  intros H. unfold make_request.
  replace (Z.to_nat retries) with 0%nat by lia. reflexivity.
Qed.

Lemma batch_loop_answers actions : forall results w,
  exists added,
    fst (batch_loop E actions results w) = results ++ added /\
    Forall2 (answers E) actions added.
Proof.
  induction actions as [|a rest IH]; intros results w; simpl.
  - exists []. rewrite app_nil_r. split; [reflexivity | constructor].
  - unfold bind.
    destruct (execute_social_action E (platform a) (action_type a)
                (target_url a) (access_token a) w) as [r w1] eqn:Hexec.
    unfold now, uniform, random, sleep, bind, ret. simpl.
    match goal with |- context [batch_loop E rest ?acc ?w3] =>
      destruct (IH acc w3) as [added [Hadd Hall]] end.
    eexists (_ :: added). split.
    + rewrite Hadd, <- app_assoc. reflexivity.
    + constructor; [|exact Hall].
      repeat split. exists w. rewrite Hexec. simpl.
      destruct r; reflexivity.
Qed.

(** C8. For every list of requests and whatever the simulated platforms
    answer, [batch_execute_actions] returns [True] and a list of outcomes as
    long as the list of requests, whose i-th outcome carries the platform
    and the action type of the i-th request and the success flag and result
    that executing that request returned. A request that fails, or names an
    unsupported platform, gets its failed outcome and the requests after it
    are processed all the same. *)
Theorem batch_outcomes_answer_requests actions w :
  let r := fst (batch_execute_actions E actions w) in
  fst r = true /\
  List.length (snd r) = List.length actions /\
  Forall2 (answers E) actions (snd r).
Proof.
  unfold batch_execute_actions, bind.
  destruct (batch_loop_answers actions [] w) as [added [Hadd Hall]].
  destruct (batch_loop E actions [] w) as [results w1]. simpl in *.
  subst results. split; [reflexivity|]. split; [|exact Hall].
  symmetry. eapply Forall2_length. exact Hall.
Qed.

End Facts.

(** Three attempts and two pauses for a GET that gets a 500 each time,
    where the design document has one attempt
    and no pause. *)
Lemma server_error_is_retried :
  let after := snd (make_request at_noon "http://example.test" "GET" [] None
                      3 bare) in
  http_calls after = 3%nat /\ slept after = [inject_Z 1; inject_Z 2] /\
  http_calls after <> 1%nat /\ slept after <> [].
Proof. vm_compute. repeat split; discriminate. Qed.

Lemma three_failed_attempts :
  let r := make_request at_noon "http://example.test" "GET" [] None 3 bare in
  http_calls (snd r) = (http_calls bare + Z.to_nat 3)%nat /\
  slept (snd r) = slept bare ++ backoff 0 (Z.to_nat 3 - 1) /\
  exists status,
    failed_status (transport at_noon (http_calls bare + (Z.to_nat 3 - 1)))
    = Some status /\
    fst r = exhausted 3 status.
Proof.
  apply (failed_response_is_retried at_noon "http://example.test" "GET" []
           None 3 bare).
  - reflexivity.
  - lia.
  - intros k _. simpl. discriminate.
Defined.

(** A request for an unsupported platform between two that succeed: three
    outcomes, in order, the second one failed. *)
Lemma failure_in_the_middle_of_a_batch :
  let request p :=
    {| platform := Some p; action_type := Some "like";
       target_url := None; access_token := None |} in
  let r := fst (batch_execute_actions at_noon
                  [request "facebook"; request "myspace"; request "twitter"]
                  bare) in
  map o_platform (snd r) = [Some "facebook"; Some "myspace"; Some "twitter"] /\
  map success (snd r) = [true; false; true].
Proof. vm_compute. split; reflexivity. Qed.

Lemma zero_retries_fail_without_attempt :
  make_request at_noon "http://example.test" "GET" [] None 0 bare
  = ((false,
      Message (String.append "Unexpected error: " (unbound_local "response"))),
     bare).
Proof.
  apply (no_retries_no_attempt at_noon "http://example.test" "GET" [] None 0
           bare).
  lia.
Defined.

End APIClientFacts.

(** ** The monitor and the scheduler together *)

Module SystemFacts.
Import Scheduler SystemProps Scenario.

Lemma independent_ret {A : Type} (a : A) : independent (ret a).
Proof. intros events w. reflexivity. Qed.

Lemma independent_bind {A B : Type} (c : M A) (k : A -> M B) :
  independent c -> (forall a, independent (k a)) -> independent (bind c k).
Proof.
  intros Hc Hk events w. unfold bind. rewrite Hc.
  destruct (c w) as [a w1]. simpl. apply Hk.
Qed.

Lemma independent_print l : independent (print l).
Proof. intros events w. reflexivity. Qed.

Lemma independent_call f : independent (call f).
Proof. intros events w. reflexivity. Qed.

Lemma independent_load_config : independent load_config.
Proof.
  intros events w. unfold load_config. simpl.
  destruct (auto_schedule_json w); reflexivity.
Qed.

Create HintDb indep.

#[local] Hint Resolve independent_ret independent_print independent_call
  independent_load_config : indep.

(** Through the binds and the branches, down to the steps already known. *)
Ltac indep :=
  repeat first
    [ progress auto with indep
    | apply independent_bind; [|intros]
    | match goal with
      | |- independent (if ?b then _ else _) => destruct b
      | |- independent (match ?x with _ => _ end) => destruct x
      end ].

Section Facts.
Variable E : oracle.

Lemma independent_now : independent (now E).
Proof. intros events w. reflexivity. Qed.

Lemma independent_sleep d : independent (sleep E d).
Proof. intros events w. reflexivity. Qed.

Hint Resolve independent_now independent_sleep : indep.

Lemma independent_within_hours : independent (is_within_operational_hours E).
Proof. unfold is_within_operational_hours. indep. Qed.

Lemma independent_should_take_break started self :
  independent (should_take_break E started self).
Proof. unfold should_take_break. indep. Qed.

Lemma independent_sleeping d self : independent (sleeping E d self).
Proof. unfold sleeping, stop. indep. Qed.

Hint Resolve independent_within_hours independent_should_take_break
  independent_sleeping : indep.

Lemma independent_countdown n : forall self, independent (countdown E n self).
Proof. induction n as [|n IH]; intros self; simpl; indep. Qed.

Hint Resolve independent_countdown : indep.

Lemma independent_take_break schedule self :
  independent (take_break E schedule self).
Proof. unfold take_break. indep. Qed.

Lemma independent_run_task cur tk : independent (run_task cur tk).
Proof. unfold run_task. indep. Qed.

Hint Resolve independent_take_break independent_run_task : indep.

Lemma independent_run_each cur l : independent (run_each cur l).
Proof. induction l as [|tk rest IH]; simpl; indep. Qed.

Hint Resolve independent_run_each : indep.

Lemma independent_run_tasks self : independent (run_tasks E self).
Proof. unfold run_tasks. indep. Qed.

Hint Resolve independent_run_tasks : indep.

(** What [trigger_safety_protocol] does is append one record to the event
    file (nothing at all when the file cannot be saved), and a pass of the
    scheduler's loop does not depend on that file: the scheduler has no
    reference to the monitor, and this file is the only trace of a
    suspension outside the monitor. *)
Lemma scheduler_ignores_safety_events :
  (forall w,
     let w' := snd (SafetyMonitor.trigger_safety_protocol E w) in
     safety_events_json w'
     = match safety_events_fault w with
       | None =>
           Some (match safety_events_json w with
                 | Some events => events
                 | None => []
                 end ++
                 [ {| ev_timestamp :=
                        Py.strftime_seconds (clock E (clock_reads w));
                      event := "safety_protocol_activated";
                      action := "temporary_suspension";
                      duration_minutes := 30 |} ])
       | Some _ => safety_events_json w
       end /\
     auto_schedule_json w' = auto_schedule_json w /\
     slept w' = slept w) /\
  (forall started self, independent (start_pass E started self)).
Proof.
  split.
  - intros w.
    unfold SafetyMonitor.trigger_safety_protocol,
      SafetyMonitor.save_safety_event, bind, now, print, ret. simpl.
    destruct (safety_events_fault w); repeat split.
  - intros started self. unfold start_pass. indep.
Qed.

End Facts.

(** C1, on the scenario of the design document. With the default rules
    (threshold 10, automatic suspension on), eleven likes at noon make the
    monitor detect the anomaly and activate its safety protocol: the event
    file holds one record of a temporary suspension of 30 minutes, the
    protocol's announcement has been printed, and the report says
    ["attention_required"]. The next pass of the loop of a started
    scheduler, in that world, takes no break: it stays out of break mode,
    dispatches the task ["sync"], and sleeps the 60 seconds between two
    passes, not 30 minutes. *)
Theorem announced_suspension_is_not_enforced :
  (exists ev, safety_events_json (snd eleven_likes) = Some [ev] /\
              action ev = "temporary_suspension" /\
              duration_minutes ev = 30) /\
  In ProtocolActivated (printed (snd eleven_likes)) /\
  SafetyMonitor.safety_status
    (fst (SafetyMonitor.get_safety_report at_noon (fst eleven_likes)
            (snd eleven_likes)))
  = "attention_required" /\
  let pass := start_pass at_noon noon running_sync (snd eleven_likes) in
  break_mode (snd (fst pass)) = false /\
  is_running (snd (fst pass)) = true /\
  In (RunningTask "sync") (printed (snd pass)) /\
  slept (snd pass) = [inject_Z 60].
Proof.
  vm_compute. repeat split.
  - eexists. repeat split.
  - repeat first [left; reflexivity | right].
  - repeat first [left; reflexivity | right].
Qed.

End SystemFacts.

(** * Further properties *)

(** ** The safety monitor *)

Module MonitorMore.
Import SafetyMonitor MonitorProps MonitorTerms MonitorFacts Scenario MoreScenarios.

Section Facts.
Variable E : oracle.

Lemma load_safety_rules_events w :
  safety_events_json (snd (load_safety_rules w)) = safety_events_json w.
Proof.
  unfold load_safety_rules. destruct (safety_rules_json w); reflexivity.
Qed.

Lemma load_safety_rules_fault w :
  safety_events_fault (snd (load_safety_rules w)) = safety_events_fault w.
Proof.
  unfold load_safety_rules. destruct (safety_rules_json w); reflexivity.
Qed.

(** What the check does to the event file. *)
Lemma check_file act self w :
  let recent := recent_at E (clock_reads w) (safety_log self) in
  safety_events_json (snd (check_suspicious_activity E act self w))
  = if (threshold_in_force w <? Py.len recent)
       && auto_suspend_on_detection (measures (rules_in_force w))
       && can_save w
    then Some (events_on_file w ++
               [suspension
                  (clock E (clock_reads w + List.length (safety_log self) + 1))])
    else safety_events_json w.
Proof.
  unfold check_suspicious_activity, bind, threshold_in_force, can_save.
  pose proof (load_safety_rules_fst w) as Hr.
  pose proof (load_safety_rules_reads w) as Hc.
  pose proof (load_safety_rules_events w) as He.
  pose proof (load_safety_rules_fault w) as Hf.
  destruct (load_safety_rules w) as [rules w1]. simpl in Hr, Hc, He, Hf.
  subst rules.
  pose proof (within_last_hour_recent E (safety_log self) w1) as Hk.
  pose proof (within_last_hour_world E (safety_log self) w1) as Hw.
  destruct (within_last_hour E (safety_log self) w1) as [recent w2].
  simpl in Hk, Hw. rewrite Hc in Hk, Hw. subst recent w2. simpl.
  destruct (_ <? _); [|simpl; exact He].
  unfold trigger_safety_protocol, save_safety_event, bind, now, print, ret.
  simpl.
  destruct (auto_suspend_on_detection _); simpl; [|exact He].
  rewrite Hf. destruct (safety_events_fault w); simpl; [exact He|].
  unfold events_on_file, suspension. rewrite He.
  replace (S (clock_reads w + List.length (safety_log self)))
    with (clock_reads w + List.length (safety_log self) + 1)%nat by lia.
  reflexivity.
Qed.

(** The events after one insertion. *)
Lemma log_activity_events_exact ty pl det self w :
  suspicious_activities (snd (fst (log_activity E ty pl det self w)))
  = if threshold_in_force w <? count_after E ty pl det self w
    then suspicious_activities self ++
         [ {| detected_at :=
                Py.strftime_seconds
                  (clock E (S (clock_reads w)
                            + List.length (log_after E ty pl det self w)));
              sa_type := "high_frequency_activity";
              activities_count := count_after E ty pl det self w;
              recommendation := "Suspend operations temporarily" |} ]
    else suspicious_activities self.
Proof.
  pose proof (log_activity_log E ty pl det self w) as Hlog.
  unfold count_after, log_after.
  unfold log_activity, bind, now in *. simpl in *.
  match goal with |- context [check_suspicious_activity E ?a ?s ?w1] =>
    pose proof (check_events E a s w1) as H;
    pose proof (check_log E a s w1) as H';
    destruct (check_suspicious_activity E a s w1) as [[b s1] w2] end.
  simpl in *. rewrite H' in Hlog. rewrite Hlog in H. rewrite H.
  replace (threshold_in_force (set_clock_reads (S (clock_reads w)) w))
    with (threshold_in_force w) by reflexivity.
  destruct (1000 <? _); simpl; reflexivity.
Qed.

(** The event file after one insertion. *)
Lemma log_activity_file ty pl det self w :
  safety_events_json (snd (log_activity E ty pl det self w))
  = if (threshold_in_force w <? count_after E ty pl det self w)
       && auto_suspend_on_detection (measures (rules_in_force w))
       && can_save w
    then Some (events_on_file w ++
               [suspension
                  (clock E (S (clock_reads w)
                            + List.length (log_after E ty pl det self w)
                            + 1))])
    else safety_events_json w.
Proof.
  pose proof (log_activity_log E ty pl det self w) as Hlog.
  unfold count_after, log_after.
  unfold log_activity, bind, now in *. simpl in *.
  match goal with |- context [check_suspicious_activity E ?a ?s ?w1] =>
    pose proof (check_file a s w1) as H;
    pose proof (check_log E a s w1) as H';
    destruct (check_suspicious_activity E a s w1) as [[b s1] w2] end.
  simpl in *. rewrite H' in Hlog. rewrite Hlog in H. rewrite H.
  reflexivity.
Qed.

(** X1. An insertion appends one event exactly when the count of the
    trailing hour it computes is above the threshold in force; the event
    records that count, and the events already present are kept in
    order. *)
Theorem event_appended_exactly_on_breach ty pl det self w :
  suspicious_activities (snd (fst (log_activity E ty pl det self w)))
  = if threshold_in_force w <? count_after E ty pl det self w
    then suspicious_activities self ++
         [ {| detected_at :=
                Py.strftime_seconds
                  (clock E (S (clock_reads w)
                            + List.length (log_after E ty pl det self w)));
              sa_type := "high_frequency_activity";
              activities_count := count_after E ty pl det self w;
              recommendation := "Suspend operations temporarily" |} ]
    else suspicious_activities self.
Proof. apply log_activity_events_exact. Qed.


Lemma Forall_skipn {A : Type} (P : A -> Prop) (k : nat) (l : list A) :
  Forall P l -> Forall P (skipn k l).
Proof.
  intros H. rewrite <- (firstn_skipn k l) in H.
  apply Forall_app in H. apply H.
Qed.

Lemma expired_later n m act :
  (n <= m)%nat -> expired E n act -> expired E m act.
Proof. intros Hnm H i Hi. apply H. lia. Qed.

(** Entries that have expired are not counted. *)
Lemma recent_at_expired old : forall n rest,
  Forall (expired E n) old ->
  recent_at E n (old ++ rest) = recent_at E (n + List.length old) rest.
Proof.
  induction old as [|act old IH]; intros n rest Hall; simpl.
  - rewrite Nat.add_0_r. reflexivity.
  - inversion Hall as [|x l Hact Hold]; subst.
    replace (_ <? _) with false.
    + rewrite IH.
      * f_equal. lia.
      * eapply Forall_impl; [|exact Hold].
        intros a Ha. apply (expired_later n); [lia | exact Ha].
    + symmetry. apply Z.ltb_ge. apply Hact. lia.
Qed.

(** After an hour without activity, the insertion counts its own entry and
    no other. *)
Lemma count_after_quiet_hour ty pl det self w :
  Forall (expired E (S (clock_reads w))) (safety_log self) ->
  stays_fresh E (clock_reads w) ->
  count_after E ty pl det self w = 1.
Proof.
  intros Hold Hnew. unfold count_after, log_after, Py.slice_last.
  rewrite skipn_app_le by (rewrite length_app; simpl; lia).
  rewrite recent_at_expired by (apply Forall_skipn; exact Hold).
  simpl.
  replace (_ <? _) with true; [reflexivity|].
  symmetry. apply Z.ltb_lt. apply Hnew. lia.
Qed.

(** Without a directory [LOGS], eleven likes at noon raise the event in
    the monitor and the protocol is announced, but saving raises: the
    error is printed and there is still no event file. *)
Lemma without_logs_nothing_is_saved :
  let after := log_activities at_noon (likes 11) init without_logs in
  List.length (suspicious_activities (fst after)) = 1%nat /\
  safety_events_json (snd after) = None /\
  In (SafetyEventSaveError
        "[Errno 2] No such file or directory: 'LOGS/safety_events.json'")
     (printed (snd after)) /\
  In ProtocolActivated (printed (snd after)).
Proof.
  vm_compute. repeat split; repeat first [left; reflexivity | right].
Qed.

(** X3. Entries older than an hour do not count. When every entry of the
    log is an hour old or more at each later clock read, and the new entry
    stays less than an hour old, the insertion counts 1, its own entry; so
    with a threshold of 1 or more it raises no event and writes nothing to
    the event file, however many entries the log holds. *)
Theorem quiet_hour_clears_the_count ty pl det self w :
  Forall (expired E (S (clock_reads w))) (safety_log self) ->
  stays_fresh E (clock_reads w) ->
  1 <= threshold_in_force w ->
  count_after E ty pl det self w = 1 /\
  suspicious_activities (snd (fst (log_activity E ty pl det self w)))
  = suspicious_activities self /\
  safety_events_json (snd (log_activity E ty pl det self w))
  = safety_events_json w.
Proof.
  intros Hold Hnew Ht.
  pose proof (count_after_quiet_hour ty pl det self w Hold Hnew) as Hc.
  rewrite log_activity_events_exact, log_activity_file, Hc.
  replace (threshold_in_force w <? 1) with false
    by (symmetry; apply Z.ltb_ge; lia).
  auto.
Qed.

(** X4. [reset_monitoring] starts the count afresh: whatever the monitor
    held, after a reset a run of insertions no longer than the threshold
    (all within the hour) raises no event. *)
Theorem reset_restarts_the_count inputs self w :
  within_window E ->
  0 <= threshold_in_force w ->
  (List.length inputs <= Z.to_nat (threshold_in_force w))%nat ->
  (List.length inputs <= 1000)%nat ->
  suspicious_activities
    (fst (log_activities E inputs (reset_monitoring self) w)) = [].
Proof.
  intros Hwin Ht Hn Hmax.
  pose proof (events_count E inputs (reset_monitoring self) w Hwin
                (Forall_nil _) Ht) as H.
  simpl in H. specialize (H Hmax).
  destruct (suspicious_activities _); [reflexivity | simpl in H; lia].
Qed.

(** X5. The report counts every entry of the log and every event, and lists
    the latest events, five at most, in the order they were detected. *)
Theorem report_lists_latest_events self w :
  let r := fst (get_safety_report E self w) in
  total_activities_monitored r = Py.len (safety_log self) /\
  suspicious_activities_detected r = Py.len (suspicious_activities self) /\
  List.length (recent_suspicious_activities r)
  = Nat.min (List.length (suspicious_activities self)) 5 /\
  exists earlier,
    suspicious_activities self = earlier ++ recent_suspicious_activities r.
Proof.
  intros r.
  assert (H : total_activities_monitored r = Py.len (safety_log self) /\
              suspicious_activities_detected r
              = Py.len (suspicious_activities self) /\
              recent_suspicious_activities r
              = Py.slice_last 5 (suspicious_activities self)).
  { unfold r, get_safety_report, bind. simpl.
    destruct (within_last_hour E (safety_log self) _) as [recent w1]. simpl.
    destruct (50 <? Py.len recent), (suspicious_activities self);
      repeat split. }
  destruct H as [H1 [H2 H3]]. rewrite H3.
  split; [exact H1|]. split; [exact H2|].
  split; [apply slice_last_length|].
  eexists. unfold Py.slice_last. symmetry. apply firstn_skipn.
Qed.

(** X6. The report keeps both recommendations: the one to review the
    suspicious activities whenever events exist, then the one to increase
    the delay whenever the count of the trailing hour is above 50, also
    when the status names only the second. *)
Theorem report_keeps_both_recommendations self w :
  recommendations (fst (get_safety_report E self w))
  = match suspicious_activities self with
    | [] => []
    | _ :: _ => ["Review recent suspicious activities"]
    end ++
    if 50 <? trailing_hour_count E self w
    then ["Consider increasing delay between actions"] else [].
Proof.
  unfold get_safety_report, trailing_hour_count, bind. simpl.
  destruct (within_last_hour E (safety_log self) _) as [recent w1]. simpl.
  destruct (50 <? Py.len recent), (suspicious_activities self); reflexivity.
Qed.

End Facts.

Lemma a_like_after_two_quiet_hours :
  count_after at_two "like" "facebook" [] stale_monitor bare = 1 /\
  suspicious_activities
    (snd (fst (log_activity at_two "like" "facebook" [] stale_monitor bare)))
  = suspicious_activities stale_monitor /\
  safety_events_json
    (snd (log_activity at_two "like" "facebook" [] stale_monitor bare))
  = safety_events_json bare.
Proof.
  apply (quiet_hour_clears_the_count at_two "like" "facebook" []
           stale_monitor bare).
  - repeat constructor; intros i _; vm_compute; discriminate.
  - intros i _. vm_compute. reflexivity.
  - vm_compute. discriminate.
Defined.

Lemma ten_likes_after_a_reset :
  suspicious_activities
    (fst (log_activities at_noon (likes 10) (reset_monitoring alarmed_monitor)
            bare)) = [].
Proof.
  apply (reset_restarts_the_count at_noon (likes 10) alarmed_monitor bare).
  - intros i j. vm_compute. reflexivity.
  - vm_compute. discriminate.
  - vm_compute. lia.
  - vm_compute. lia.
Defined.

End MonitorMore.

(** ** The scheduler *)

Module SchedulerMore.
Import Scheduler SchedulerProps SchedulerTerms SchedulerFacts Scenario
  MoreScenarios.

(** Two strings of equal length are compared before what follows them. *)
Lemma compare_append (x y : string) : forall s t,
  String.length x = String.length y ->
  String.compare (String.append x s) (String.append y t)
  = match String.compare x y with
    | Eq => String.compare s t
    | c => c
    end.
Proof.
  revert y. induction x as [|a x IH]; intros [|b y] s t Hlen;
    simpl in *; try discriminate; [reflexivity|].
  destruct (Ascii.compare a b); [|reflexivity|reflexivity].
  apply IH. lia.
Qed.

(** On numbers below 100, two digits are compared as the numbers are. *)
Lemma two_digits_spec (a b : Z) :
  0 <= a < 100 -> 0 <= b < 100 ->
  String.length (Py.two_digits a) = 2%nat /\
  String.compare (Py.two_digits a) (Py.two_digits b) = (a ?= b).
Proof.
  intros Ha Hb.
  assert (Hall :
    forallb (fun i => forallb (fun j =>
      Nat.eqb (String.length (Py.two_digits (Z.of_nat i))) 2
      && match String.compare (Py.two_digits (Z.of_nat i))
                 (Py.two_digits (Z.of_nat j)),
               (Z.of_nat i ?= Z.of_nat j) with
         | Eq, Eq | Lt, Lt | Gt, Gt => true
         | _, _ => false
         end) (seq 0 100)) (seq 0 100) = true)
    by (vm_compute; reflexivity).
  rewrite forallb_forall in Hall.
  specialize (Hall (Z.to_nat a)). rewrite in_seq in Hall.
  specialize (Hall ltac:(lia)).
  rewrite forallb_forall in Hall.
  specialize (Hall (Z.to_nat b)). rewrite in_seq in Hall.
  specialize (Hall ltac:(lia)).
  rewrite !Z2Nat.id in Hall by lia.
  apply andb_prop in Hall. destruct Hall as [Hlen Hcmp].
  apply Nat.eqb_eq in Hlen. split; [exact Hlen|].
  destruct (String.compare _ _), (a ?= b); congruence.
Qed.

(** Two well-formed times of day are ordered as strings the way they are
    ordered as times. *)
Lemma hm_leb (h1 m1 h2 m2 : Z) :
  0 <= h1 < 24 -> 0 <= m1 < 60 -> 0 <= h2 < 24 -> 0 <= m2 < 60 ->
  String.leb (hm h1 m1) (hm h2 m2) = (60 * h1 + m1 <=? 60 * h2 + m2).
Proof.
  intros Hh1 Hm1 Hh2 Hm2. unfold String.leb, hm.
  destruct (two_digits_spec h1 h2 ltac:(lia) ltac:(lia)) as [Hl1 Hc1].
  destruct (two_digits_spec h2 h1 ltac:(lia) ltac:(lia)) as [Hl2 _].
  destruct (two_digits_spec m1 m2 ltac:(lia) ltac:(lia)) as [_ Hc2].
  rewrite compare_append by congruence. rewrite Hc1.
  destruct (Z.compare_spec h1 h2) as [Heq|Hlt|Hgt].
  - rewrite (compare_append ":" ":") by reflexivity.
    change (String.compare ":" ":") with Eq. cbv iota. rewrite Hc2.
    destruct (Z.compare_spec m1 m2); symmetry;
      [apply Z.leb_le | apply Z.leb_le | apply Z.leb_gt]; lia.
  - symmetry. apply Z.leb_le. lia.
  - symmetry. apply Z.leb_gt. lia.
Qed.

(** [strftime("%H:%M")] writes the minute of the day. *)
Lemma strftime_HM_hm d :
  Py.strftime_HM d = hm (minute_of_day d / 60) (minute_of_day d mod 60) /\
  0 <= minute_of_day d / 60 < 24 /\ 0 <= minute_of_day d mod 60 < 60 /\
  minute_of_day d = 60 * (minute_of_day d / 60) + minute_of_day d mod 60.
Proof.
  unfold Py.strftime_HM, hm, minute_of_day.
  set (q := d / (60 * Py.usec)).
  assert (Hq : d / (3600 * Py.usec) = q / 60).
  { unfold q. rewrite Z.div_div by (unfold Py.usec; lia). reflexivity. }
  rewrite Hq.
  assert (Hmod : q mod 1440 = q mod 60 + 60 * ((q / 60) mod 24)).
  { replace 1440 with (60 * 24) by lia. apply Z.rem_mul_r; lia. }
  pose proof (Z.mod_pos_bound q 60 ltac:(lia)) as H60.
  pose proof (Z.mod_pos_bound (q / 60) 24 ltac:(lia)) as H24.
  assert (Hdiv : q mod 1440 / 60 = (q / 60) mod 24).
  { rewrite Hmod. rewrite Z.mul_comm, Z.div_add by lia.
    rewrite Z.div_small by lia. lia. }
  assert (Hrem : (q mod 1440) mod 60 = q mod 60).
  { rewrite Hmod. rewrite Z.mul_comm, Z.mod_add by lia.
    apply Z.mod_small. lia. }
  rewrite Hdiv, Hrem. repeat split; lia.
Qed.

Lemma keeps_ret {A B : Type} (f : world -> B) (a : A) : keeps f (ret a).
Proof. intros w. reflexivity. Qed.

Lemma keeps_bind {A B C : Type} (f : world -> C) (c : M A) (k : A -> M B) :
  keeps f c -> (forall a, keeps f (k a)) -> keeps f (bind c k).
Proof.
  intros Hc Hk w. unfold bind. specialize (Hc w).
  destruct (c w) as [a w1]. simpl in Hc. rewrite <- Hc. apply Hk.
Qed.

Lemma keeps_load_config {B : Type} (f : world -> B) :
  (forall l w, f (set_printed l w) = f w) -> keeps f load_config.
Proof.
  intros Hf w. unfold load_config.
  destruct (auto_schedule_json w); [reflexivity|]. simpl. apply Hf.
Qed.

Create HintDb frame.

#[local] Hint Resolve keeps_ret : frame.

(** Through the binds and the branches; a step that does not touch the part
    of the world is closed by computation. *)
Ltac frame :=
  repeat first
    [ solve [intros ?; reflexivity]
    | solve [apply keeps_load_config; intros; reflexivity]
    | progress auto with frame
    | apply keeps_bind; [|intros]
    | match goal with
      | |- keeps _ (if ?b then _ else _) => destruct b
      | |- keeps _ (match ?x with _ => _ end) => destruct x
      end ].

Section Facts.
Variable E : oracle.

Lemma load_config_fst w : fst (load_config w) = config_in_force w.
Proof.
  unfold load_config, config_in_force.
  destruct (auto_schedule_json w); reflexivity.
Qed.

Lemma load_config_reads w :
  clock_reads (snd (load_config w)) = clock_reads w.
Proof. unfold load_config. destruct (auto_schedule_json w); reflexivity. Qed.

(** The answer of [is_within_operational_hours]. *)
Lemma within_hours_answer w :
  fst (is_within_operational_hours E w)
  = if oh_enabled (hours (config_in_force w))
    then String.leb (start_time (hours (config_in_force w)))
           (Py.strftime_HM (clock E (clock_reads w)))
         && String.leb (Py.strftime_HM (clock E (clock_reads w)))
              (end_time (hours (config_in_force w)))
    else true.
Proof.
  unfold is_within_operational_hours, bind.
  pose proof (load_config_fst w) as Hc.
  pose proof (load_config_reads w) as Hr.
  destruct (load_config w) as [config w1]. simpl in Hc, Hr. subst config.
  destruct (oh_enabled _); simpl; [|reflexivity].
  rewrite Hr. reflexivity.
Qed.

Lemma within_hours_as_times w h1 m1 h2 m2 :
  oh_enabled (hours (config_in_force w)) = true ->
  start_time (hours (config_in_force w)) = hm h1 m1 ->
  end_time (hours (config_in_force w)) = hm h2 m2 ->
  0 <= h1 < 24 -> 0 <= m1 < 60 -> 0 <= h2 < 24 -> 0 <= m2 < 60 ->
  fst (is_within_operational_hours E w)
  = (60 * h1 + m1 <=? minute_of_day (clock E (clock_reads w)))
    && (minute_of_day (clock E (clock_reads w)) <=? 60 * h2 + m2).
Proof.
  intros Hen Hs He Hh1 Hm1 Hh2 Hm2.
  rewrite within_hours_answer, Hen, Hs, He.
  destruct (strftime_HM_hm (clock E (clock_reads w)))
    as [Hfmt [Hh [Hm Hsum]]].
  rewrite Hfmt, !hm_leb by assumption.
  rewrite <- Hsum. reflexivity.
Qed.

(** X7. With the window enabled and its bounds written as ["HH:MM"],
    [is_within_operational_hours] compares times of day although it
    compares strings: it answers whether the current minute of the day
    lies between the start and the end, both included (so the whole last
    minute of the window is inside). *)
Theorem operational_hours_compare_times_of_day w h1 m1 h2 m2 :
  oh_enabled (hours (config_in_force w)) = true ->
  start_time (hours (config_in_force w)) = hm h1 m1 ->
  end_time (hours (config_in_force w)) = hm h2 m2 ->
  0 <= h1 < 24 -> 0 <= m1 < 60 -> 0 <= h2 < 24 -> 0 <= m2 < 60 ->
  fst (is_within_operational_hours E w)
  = (60 * h1 + m1 <=? minute_of_day (clock E (clock_reads w)))
    && (minute_of_day (clock E (clock_reads w)) <=? 60 * h2 + m2).
Proof. apply within_hours_as_times. Qed.

Lemma within_hours_keeps_config :
  keeps auto_schedule_json (is_within_operational_hours E).
Proof. unfold is_within_operational_hours. frame. Qed.

Lemma within_hours_keeps_slept : keeps slept (is_within_operational_hours E).
Proof. unfold is_within_operational_hours. frame. Qed.

Lemma within_hours_keeps_calls :
  keeps task_calls (is_within_operational_hours E).
Proof. unfold is_within_operational_hours. frame. Qed.

Lemma sleeping_keeps_config d self :
  keeps auto_schedule_json (sleeping E d self).
Proof. unfold sleeping, stop. frame. Qed.

Lemma sleeping_keeps_calls d self : keeps task_calls (sleeping E d self).
Proof. unfold sleeping, stop. frame. Qed.

(** One sleep: one more pause, and [is_running] cleared when [stop()]
    arrives. *)
Lemma sleeping_effect d self w :
  slept (snd (sleeping E d self w)) = slept w ++ [pause d] /\
  fst (sleeping E d self w)
  = if stop_request E (List.length (slept w))
    then set_is_running false self else self.
Proof.
  unfold sleeping, bind, sleep, stop, bind, print, ret. simpl.
  destruct (stop_request E _); split; reflexivity.
Qed.

(** The loop of [start], one pass at a time. *)
Lemma start_loop_step passes started self w :
  start_loop E (S passes) started self w
  = if is_running self
    then start_loop E passes (fst (fst (start_pass E started self w)))
           (snd (fst (start_pass E started self w)))
           (snd (start_pass E started self w))
    else ((true, self), w).
Proof.
  simpl. destruct (is_running self); simpl; [|reflexivity].
  unfold bind. destruct (start_pass E started self w) as [[st s1] w1].
  reflexivity.
Qed.

Lemma start_loop_stopped passes started self w :
  is_running self = false ->
  start_loop E passes started self w = ((true, self), w).
Proof. intros H. destruct passes; simpl; rewrite H; reflexivity. Qed.

(** A pass outside the operational hours: print, and sleep five minutes. *)
Lemma start_pass_outside started self w :
  fst (is_within_operational_hours E w) = false ->
  start_pass E started self w
  = let w1 := set_printed
                (printed (snd (is_within_operational_hours E w))
                 ++ [OutsideHours])
                (snd (is_within_operational_hours E w)) in
    ((started, fst (sleeping E 300 self w1)), snd (sleeping E 300 self w1)).
Proof.
  intros Hout. unfold start_pass, bind.
  destruct (is_within_operational_hours E w) as [inside w1].
  simpl in Hout. subst inside. simpl. unfold print. simpl.
  destruct (sleeping E 300 self _) as [s1 w2]. reflexivity.
Qed.

(** A window that is closed whatever the time. *)
Lemma closed_window_loop passes : forall started self w,
  (forall w', auto_schedule_json w' = auto_schedule_json w ->
     fst (is_within_operational_hours E w') = false) ->
  let r := start_loop E passes started self w in
  tasks (snd (fst r)) = tasks self /\
  task_calls (snd r) = task_calls w /\
  slept (snd r)
  = slept w ++
    repeat (pause 300)
      (if is_running self
       then sleeps_until_stop E (List.length (slept w)) passes else 0%nat).
Proof.
  induction passes as [|passes IH]; intros started self w Hclosed.
  - simpl. destruct (is_running self); simpl;
      (split; [reflexivity|]; split; [reflexivity|]);
      rewrite app_nil_r; reflexivity.
  - cbv zeta. rewrite start_loop_step.
    destruct (is_running self) eqn:Hrun.
    2:{ simpl. split; [reflexivity|]. split; [reflexivity|].
        rewrite app_nil_r. reflexivity. }
    rewrite start_pass_outside by (apply Hclosed; reflexivity).
    cbv zeta. simpl fst. simpl snd.
    pose proof (within_hours_keeps_config w) as Hcfg.
    pose proof (within_hours_keeps_slept w) as Hsl.
    pose proof (within_hours_keeps_calls w) as Hca.
    set (w1 := snd (is_within_operational_hours E w)) in *.
    set (w2 := set_printed (printed w1 ++ [OutsideHours]) w1).
    pose proof (sleeping_effect 300 self w2) as [Hs1 Hs2].
    pose proof (sleeping_keeps_config 300 self w2) as Hs3.
    pose proof (sleeping_keeps_calls 300 self w2) as Hs4.
    assert (Hw2 : slept w2 = slept w) by exact Hsl.
    rewrite Hw2 in Hs1, Hs2.
    set (self1 := fst (sleeping E 300 self w2)) in *.
    set (w3 := snd (sleeping E 300 self w2)) in *.
    specialize (IH started self1 w3).
    destruct IH as [IH1 [IH2 IH3]].
    { intros w' Hw'. apply Hclosed. rewrite Hw', Hs3. exact Hcfg. }
    split; [|split].
    + rewrite IH1, Hs2. destruct (stop_request E _); reflexivity.
    + rewrite IH2, Hs4. exact Hca.
    + rewrite IH3, Hs1, Hs2, <- app_assoc. f_equal.
      rewrite length_app, Nat.add_comm.
      cbn [sleeps_until_stop List.length Nat.add].
      destruct (stop_request E (List.length (slept w))); simpl.
      * reflexivity.
      * rewrite Hrun. reflexivity.
Qed.

(** X8. A window that crosses midnight never opens. With the window
    enabled and an end time of day before the start time (22:00 to 06:00,
    say), [start] finds itself outside the operational hours at every pass
    of its loop, whatever the clock: each pass sleeps five minutes and
    does nothing else, until a [stop()] arrives, so that the loop never
    invokes a task and leaves the tasks as they are. *)
Theorem overnight_window_never_opens passes self w h1 m1 h2 m2 :
  oh_enabled (hours (config_in_force w)) = true ->
  start_time (hours (config_in_force w)) = hm h1 m1 ->
  end_time (hours (config_in_force w)) = hm h2 m2 ->
  0 <= h1 < 24 -> 0 <= m1 < 60 -> 0 <= h2 < 24 -> 0 <= m2 < 60 ->
  60 * h2 + m2 < 60 * h1 + m1 ->
  let r := start E passes self w in
  tasks (snd (fst r)) = tasks self /\
  task_calls (snd r) = task_calls w /\
  slept (snd r)
  = slept w ++
    repeat (pause 300) (sleeps_until_stop E (List.length (slept w)) passes).
Proof.
  intros Hen Hs He Hh1 Hm1 Hh2 Hm2 Hlt.
  unfold start, bind, print, now. simpl.
  match goal with |- context [start_loop E passes ?st ?s ?w1] =>
    pose proof (closed_window_loop passes st s w1) as H end.
  apply H. clear H. simpl. intros w' Hw'.
  assert (Hcfg : config_in_force w' = config_in_force w)
    by (unfold config_in_force; now rewrite Hw').
  rewrite (within_hours_as_times w' h1 m1 h2 m2); try congruence.
  destruct (_ <=? minute_of_day _) eqn:H1; [|reflexivity].
  apply Z.leb_le in H1. apply Z.leb_gt. lia.
Qed.

Lemma find_first {A : Type} (f : A -> bool) (l : list A) (x : A) :
  find f l = Some x ->
  exists before after,
    l = before ++ x :: after /\ forall y, In y before -> f y = false.
Proof.
  induction l as [|a l IH]; simpl; [discriminate|].
  destruct (f a) eqn:Hfa.
  - intros [= ->]. exists [], l. split; [reflexivity|]. intros y [].
  - intros H. destruct (IH H) as [before [after [Hl Hb]]].
    exists (a :: before), after. split; [now rewrite Hl|].
    intros y [<-|Hy]; [exact Hfa | now apply Hb].
Qed.

(** The answer of [should_take_break] out of break mode. *)
Lemma should_take_break_answer started self w :
  break_mode self = false ->
  fst (should_take_break E started self w)
  = match find (qualifies (clock E (clock_reads w)) started self)
            (break_schedule (config_in_force w)) with
    | Some schedule => RetSchedule schedule
    | None => RetNone
    end.
Proof.
  intros Hb. unfold should_take_break, bind. rewrite Hb.
  pose proof (load_config_fst w) as Hc.
  pose proof (load_config_reads w) as Hr.
  destruct (load_config w) as [config w1]. simpl in Hc, Hr. subst config.
  unfold now. simpl. rewrite Hr. reflexivity.
Qed.

(** X9. In break mode [should_take_break] answers [False] at once, without
    loading the configuration or reading the clock. Out of break mode it
    answers with the first rule of the configured list that is enabled and
    whose [after_minutes] have passed both since the loop started and since
    the last break, and with [None] exactly when no rule is; so it never
    answers with a disabled rule, nor one whose time has not come. *)
Theorem break_rule_only_when_due started self w :
  if break_mode self
  then should_take_break E started self w = (RetFalse, w)
  else
    match fst (should_take_break E started self w) with
    | RetSchedule schedule =>
        qualifies (clock E (clock_reads w)) started self schedule = true /\
        exists before after,
          break_schedule (config_in_force w) = before ++ schedule :: after /\
          forall earlier, In earlier before ->
            qualifies (clock E (clock_reads w)) started self earlier = false
    | RetNone =>
        forall schedule, In schedule (break_schedule (config_in_force w)) ->
          qualifies (clock E (clock_reads w)) started self schedule = false
    | RetFalse => False
    end.
Proof.
  destruct (break_mode self) eqn:Hb.
  - unfold should_take_break. rewrite Hb. reflexivity.
  - rewrite should_take_break_answer by exact Hb.
    destruct (find _ _) as [schedule|] eqn:Hfind.
    + split; [apply (find_some _ _ Hfind)|].
      apply find_first. exact Hfind.
    + apply find_none. exact Hfind.
Qed.

Lemma countdown_keeps_reads n : forall self,
  keeps clock_reads (countdown E n self).
Proof.
  induction n as [|n IH]; intros self; simpl; unfold sleeping, stop; frame.
Qed.

Lemma countdown_keeps_calls n : forall self,
  keeps task_calls (countdown E n self).
Proof.
  induction n as [|n IH]; intros self; simpl; unfold sleeping, stop; frame.
Qed.

(** The countdown, one minute at a time. *)
Lemma countdown_step n self w :
  countdown E (S n) self w
  = if is_running self
    then
      let w1 := set_printed (printed w ++ [ResumingIn (Z.of_nat (S n))]) w in
      countdown E n (fst (sleeping E 60 self w1)) (snd (sleeping E 60 self w1))
    else (self, w).
Proof.
  cbn [countdown]. destruct (is_running self); [|reflexivity].
  unfold negb, bind at 1, print at 1. cbv beta iota zeta.
  unfold bind at 1.
  destruct (sleeping E 60 self _) as [s1 w2]. reflexivity.
Qed.

(** [take_break] around its countdown. *)
Lemma take_break_eq schedule self w :
  take_break E schedule self w
  = let r := countdown E (Z.to_nat (break_minutes schedule))
               (set_break_mode true self)
               (set_printed (printed w ++ [TakingBreak (break_minutes schedule)])
                  w) in
    if is_running (fst r)
    then
      let w1 := set_printed (printed (snd r) ++ [BreakCompleted]) (snd r) in
      (set_last_break_time (Some (clock E (clock_reads w1)))
         (set_break_mode false (fst r)),
       set_clock_reads (S (clock_reads w1)) w1)
    else r.
Proof.
  unfold take_break, bind at 1, print at 1. cbv beta iota zeta.
  unfold bind at 1.
  destruct (countdown E _ _ _) as [s1 w2]. cbv beta iota zeta. simpl fst.
  destruct (is_running s1); reflexivity.
Qed.

(** The countdown in general: some minutes of sleep, no more than asked;
    only [is_running] can change, and only to [False]. *)
Lemma countdown_bound n : forall self w,
  exists k, (k <= n)%nat /\
    slept (snd (countdown E n self w)) = slept w ++ repeat (pause 60) k /\
    (fst (countdown E n self w) = self \/
     fst (countdown E n self w) = set_is_running false self).
Proof.
  induction n as [|n IH]; intros self w.
  - exists 0%nat. simpl. rewrite app_nil_r. auto.
  - rewrite countdown_step. destruct (is_running self) eqn:Hrun.
    2:{ exists 0%nat. simpl. rewrite app_nil_r. split; [lia|]. auto. }
    cbv zeta.
    set (w1 := set_printed _ w).
    pose proof (sleeping_effect 60 self w1) as [Hs1 Hs2].
    destruct (IH (fst (sleeping E 60 self w1)) (snd (sleeping E 60 self w1)))
      as [k [Hk [Hsl Hself]]].
    exists (S k). split; [lia|]. split.
    + rewrite Hsl, Hs1. unfold w1. simpl slept. rewrite <- app_assoc.
      reflexivity.
    + rewrite Hs2 in Hself |- *.
      destruct (stop_request E _); destruct Hself as [H | H]; rewrite H; auto.
Qed.

(** The countdown that no [stop()] interrupts. *)
Lemma countdown_quiet n : forall self w,
  is_running self = true ->
  (forall j, (j < n)%nat ->
     stop_request E (List.length (slept w) + j) = false) ->
  fst (countdown E n self w) = self /\
  slept (snd (countdown E n self w)) = slept w ++ repeat (pause 60) n.
Proof.
  induction n as [|n IH]; intros self w Hrun Hquiet.
  - simpl. rewrite app_nil_r. auto.
  - rewrite countdown_step, Hrun. cbv zeta.
    set (w1 := set_printed _ w).
    pose proof (sleeping_effect 60 self w1) as [Hs1 Hs2].
    pose proof (Hquiet 0%nat ltac:(lia)) as H0.
    rewrite Nat.add_0_r in H0.
    replace (slept w1) with (slept w) in Hs1, Hs2 by reflexivity.
    rewrite H0 in Hs2. rewrite Hs2.
    destruct (IH self (snd (sleeping E 60 self w1)) Hrun) as [IH1 IH2].
    { intros j Hj. rewrite Hs1, length_app. simpl.
      rewrite <- (Hquiet (S j)) by lia. f_equal. lia. }
    split; [exact IH1|].
    rewrite IH2, Hs1, <- app_assoc. reflexivity.
Qed.

(** X10. A break that no [stop()] interrupts runs to its end: on a running
    scheduler, [take_break] sleeps [break_minutes] times one minute (not at
    all when [break_minutes] is zero or less), then clears [break_mode] and
    sets [last_break_time] to the time it reads then; the scheduler is
    still running and its tasks are untouched. *)
Theorem uninterrupted_break_completes schedule self w :
  is_running self = true ->
  (forall j, (j < Z.to_nat (break_minutes schedule))%nat ->
     stop_request E (List.length (slept w) + j) = false) ->
  fst (take_break E schedule self w)
  = set_last_break_time (Some (clock E (clock_reads w)))
      (set_break_mode false self) /\
  slept (snd (take_break E schedule self w))
  = slept w ++ repeat (pause 60) (Z.to_nat (break_minutes schedule)).
Proof.
  intros Hrun Hquiet. rewrite take_break_eq. cbv zeta.
  set (w0 := set_printed _ w).
  pose proof (countdown_quiet (Z.to_nat (break_minutes schedule))
                (set_break_mode true self) w0 Hrun Hquiet) as [H1 H2].
  pose proof (countdown_keeps_reads (Z.to_nat (break_minutes schedule))
                (set_break_mode true self) w0) as H3.
  rewrite H1. simpl is_running. rewrite Hrun. simpl.
  rewrite H3, H2. split; [|reflexivity]. destruct self; reflexivity.
Qed.

(** X11. Whatever happens, [take_break] sleeps whole minutes, at most
    [break_minutes] of them, invokes no task and leaves the task list as it
    is. *)
Theorem break_is_bounded_and_runs_no_task schedule self w :
  tasks (fst (take_break E schedule self w)) = tasks self /\
  task_calls (snd (take_break E schedule self w)) = task_calls w /\
  exists k, (k <= Z.to_nat (break_minutes schedule))%nat /\
    slept (snd (take_break E schedule self w))
    = slept w ++ repeat (pause 60) k.
Proof.
  rewrite take_break_eq. cbv zeta.
  set (w0 := set_printed _ w).
  pose proof (countdown_bound (Z.to_nat (break_minutes schedule))
                (set_break_mode true self) w0) as [k [Hk [Hsl Hself]]].
  pose proof (countdown_keeps_calls (Z.to_nat (break_minutes schedule))
                (set_break_mode true self) w0) as Hc.
  assert (Ht : tasks (fst (countdown E (Z.to_nat (break_minutes schedule))
                             (set_break_mode true self) w0)) = tasks self)
    by (destruct Hself as [-> | ->]; reflexivity).
  destruct (is_running _); simpl.
  - split; [exact Ht|]. split; [exact Hc|]. exists k. auto.
  - split; [exact Ht|]. split; [exact Hc|]. exists k. auto.
Qed.

(** The body of the loop of [run_tasks] invokes a due task once, another
    one not at all, and changes nothing of a task but [last_run]. *)
Lemma run_task_effect cur tk w :
  task_calls (snd (run_task cur tk w))
  = (task_calls w + if is_due cur tk then 1 else 0)%nat /\
  slept (snd (run_task cur tk w)) = slept w /\
  name (fst (run_task cur tk w)) = name tk /\
  function (fst (run_task cur tk w)) = function tk /\
  interval (fst (run_task cur tk w)) = interval tk.
Proof.
  unfold run_task, bind, call, print. simpl.
  destruct (is_due cur tk); simpl.
  - destruct (function tk (task_calls w)); simpl; repeat split; lia.
  - repeat split; lia.
Qed.

Lemma run_each_effect cur l : forall w,
  task_calls (snd (run_each cur l w))
  = (task_calls w + List.length (filter (is_due cur) l))%nat /\
  slept (snd (run_each cur l w)) = slept w /\
  map name (fst (run_each cur l w)) = map name l /\
  map function (fst (run_each cur l w)) = map function l /\
  map interval (fst (run_each cur l w)) = map interval l.
Proof.
  induction l as [|tk rest IH]; intros w; simpl.
  - repeat split. lia.
  - unfold bind.
    pose proof (run_task_effect cur tk w) as [H1 [H2 [H3 [H4 H5]]]].
    destruct (run_task cur tk w) as [tk' w1]. simpl in H1, H2, H3, H4, H5.
    specialize (IH w1). destruct IH as [I1 [I2 [I3 [I4 I5]]]].
    destruct (run_each cur rest w1) as [rest' w2].
    simpl in I1, I2, I3, I4, I5 |- *.
    rewrite I1, H1, I2, H2, I3, H3, I4, H4, I5, H5.
    destruct (is_due cur tk); simpl; repeat split; lia.
Qed.

(** [run_tasks] around its loop. *)
Lemma run_tasks_eq self w :
  run_tasks E self w
  = if break_mode self then (self, w)
    else
      let w1 := snd (is_within_operational_hours E w) in
      if fst (is_within_operational_hours E w)
      then
        let r := run_each (clock E (clock_reads w1)) (tasks self)
                   (set_clock_reads (S (clock_reads w1)) w1) in
        (set_tasks (fst r) self, snd r)
      else (self, w1).
Proof.
  unfold run_tasks. destruct (break_mode self); [reflexivity|].
  unfold bind at 1.
  destruct (is_within_operational_hours E w) as [inside w1].
  destruct inside; simpl; [|reflexivity].
  unfold bind, now. simpl.
  destruct (run_each _ _ _) as [l w2]. reflexivity.
Qed.

(** X12. A tick invokes exactly the due tasks. Out of break mode and inside
    the operational hours, every task that is due at the time the tick
    reads is invoked once, and no other task is: [run_tasks] makes as many
    calls as there are due tasks, whether the callables return or raise.
    In break mode, or outside the operational hours, it makes no call. *)
Theorem every_due_task_is_invoked_once self w :
  let current_time :=
    clock E (clock_reads (snd (is_within_operational_hours E w))) in
  task_calls (snd (run_tasks E self w))
  = (task_calls w
     + if negb (break_mode self) && fst (is_within_operational_hours E w)
       then List.length (filter (is_due current_time) (tasks self))
       else 0)%nat.
Proof.
  cbv zeta. rewrite run_tasks_eq.
  destruct (break_mode self); [simpl; lia|].
  destruct (fst (is_within_operational_hours E w)); cbv zeta; simpl.
  - match goal with |- context [run_each ?c ?l ?w1] =>
      pose proof (run_each_effect c l w1) as [H _] end.
    rewrite H. simpl. rewrite within_hours_keeps_calls. reflexivity.
  - rewrite within_hours_keeps_calls. lia.
Qed.

(** X13. [run_tasks] changes nothing but [last_run]: it keeps the tasks in
    their number and order, with their names, callables and intervals, and
    leaves [is_running], [break_mode] and [last_break_time] alone. *)
Theorem run_tasks_changes_last_run_only self w :
  map name (tasks (fst (run_tasks E self w))) = map name (tasks self) /\
  map function (tasks (fst (run_tasks E self w)))
  = map function (tasks self) /\
  map interval (tasks (fst (run_tasks E self w)))
  = map interval (tasks self) /\
  is_running (fst (run_tasks E self w)) = is_running self /\
  break_mode (fst (run_tasks E self w)) = break_mode self /\
  last_break_time (fst (run_tasks E self w)) = last_break_time self.
Proof.
  rewrite run_tasks_eq.
  destruct (break_mode self) eqn:Hb; [repeat split; simpl; auto|]. cbv zeta.
  destruct (fst (is_within_operational_hours E w));
    [|repeat split; simpl; auto].
  match goal with |- context [run_each ?c ?l ?w1] =>
    pose proof (run_each_effect c l w1) as [_ [_ [H1 [H2 H3]]]] end.
  simpl. rewrite H1, H2, H3, Hb. repeat split.
Qed.

(** X14. A task that ran is not run again before its interval has passed.
    Once the body of the loop has dispatched a due task whose callable
    returned, at a tick reading [current_time], the task is left alone, and
    its callable not invoked, at every tick that reads a time less than
    [interval] minutes later; it is due again at every tick that reads
    [interval] minutes later or more. *)
Theorem task_rests_for_its_interval current_time tk w :
  is_due current_time tk = true ->
  function tk (task_calls w) = Returns ->
  let ran := fst (run_task current_time tk w) in
  forall later w',
    (later - current_time < interval tk * 60 * Py.usec ->
     run_task later ran w' = (ran, w')) /\
    (interval tk * 60 * Py.usec <= later - current_time ->
     is_due later ran = true).
Proof.
  intros Hdue Hret ran later w'.
  assert (Hran : ran = set_last_run (Some current_time) tk).
  { unfold ran, run_task, bind, call, print. rewrite Hdue. simpl.
    rewrite Hret. reflexivity. }
  rewrite Hran. split; intros H.
  - unfold run_task, is_due. simpl.
    replace (_ <=? _) with false; [reflexivity|].
    symmetry. apply Z.leb_gt. exact H.
  - unfold is_due. simpl. apply Z.leb_le. exact H.
Qed.

Lemma run_each_app cur l tk : forall w,
  run_each cur (l ++ [tk]) w
  = (fst (run_each cur l w)
     ++ [fst (run_task cur tk (snd (run_each cur l w)))],
     snd (run_task cur tk (snd (run_each cur l w)))).
Proof.
  induction l as [|a rest IH]; intros w; simpl.
  - unfold bind, ret. destruct (run_task cur tk w) as [tk' w1]. reflexivity.
  - unfold bind. destruct (run_task cur a w) as [a' w1].
    rewrite IH. destruct (run_each cur rest w1) as [rest' w2].
    reflexivity.
Qed.

(** X15. A task registered with [add_task], whatever its interval, is
    dispatched by the next tick that runs: it has never run, so it is due.
    The tick comes to it last, after one call for each due task before it,
    and makes the next call of the process, which is a call of its
    callable; when that call returns, its [last_run] is the time of the
    tick, and when that call raises, the task is as it was registered. *)
Theorem new_task_runs_at_next_tick task_name f minutes self w :
  break_mode self = false ->
  let added := fst (add_task task_name f minutes self w) in
  let w1 := snd (add_task task_name f minutes self w) in
  fst (is_within_operational_hours E w1) = true ->
  let current_time :=
    clock E (clock_reads (snd (is_within_operational_hours E w1))) in
  let registered :=
    {| name := task_name; function := f; interval := minutes;
       last_run := None |} in
  let n :=
    (task_calls w
     + List.length (filter (is_due current_time) (tasks self)))%nat in
  task_calls (snd (run_tasks E added w1)) = S n /\
  exists earlier,
    List.length earlier = List.length (tasks self) /\
    tasks (fst (run_tasks E added w1))
    = earlier ++ [ match f n with
                   | Returns => set_last_run (Some current_time) registered
                   | Fails _ => registered
                   end ].
Proof.
  intros Hb added w1 Hin current_time registered n.
  rewrite run_tasks_eq.
  replace (break_mode added) with false by (symmetry; exact Hb).
  rewrite Hin. cbv zeta.
  change (tasks added) with (tasks self ++ [registered]).
  rewrite run_each_app.
  match goal with |- context [run_each ?c ?l ?w2] =>
    pose proof (run_each_effect c l w2) as [Hc [_ [Hn _]]];
    assert (Hw2 : task_calls w2 = task_calls w)
      by (simpl; rewrite within_hours_calls; reflexivity);
    rewrite Hw2 in Hc;
    destruct (run_each c l w2) as [earlier w3]
  end.
  cbn [fst snd] in Hc, Hn. fold current_time in Hc. fold n in Hc.
  cbn [fst snd].
  unfold run_task, is_due, bind, call, print, ret.
  cbn [last_run registered fst snd task_calls set_printed function name].
  rewrite Hc.
  split.
  - destruct (f n); reflexivity.
  - exists earlier. split.
    + rewrite <- (length_map name earlier), Hn, length_map. reflexivity.
    + destruct (f n); reflexivity.
Qed.

Lemma should_take_break_keeps_slept started self :
  keeps slept (should_take_break E started self).
Proof. unfold should_take_break. frame. Qed.

Lemma should_take_break_keeps_calls started self :
  keeps task_calls (should_take_break E started self).
Proof. unfold should_take_break. frame. Qed.

Lemma take_break_keeps_calls schedule self :
  keeps task_calls (take_break E schedule self).
Proof.
  intros w. rewrite take_break_eq. cbv zeta.
  set (w0 := set_printed _ w).
  pose proof (countdown_keeps_calls (Z.to_nat (break_minutes schedule))
                (set_break_mode true self) w0) as Hc.
  destruct (is_running _); simpl; exact Hc.
Qed.

(** A tick sleeps nothing and makes at most one call for each task. *)
Lemma run_tasks_effect self w :
  slept (snd (run_tasks E self w)) = slept w /\
  (task_calls (snd (run_tasks E self w))
   <= task_calls w + List.length (tasks self))%nat.
Proof.
  rewrite run_tasks_eq.
  destruct (break_mode self); [simpl; split; [reflexivity | lia]|].
  cbv zeta.
  pose proof (within_hours_keeps_slept w) as Hs.
  pose proof (within_hours_keeps_calls w) as Hc.
  destruct (fst (is_within_operational_hours E w)); simpl;
    [|split; [exact Hs | lia]].
  match goal with |- context [run_each ?c ?l ?w1] =>
    pose proof (run_each_effect c l w1) as [H1 [H2 _]];
    pose proof (filter_length_le (is_due c) l) as Hle end.
  rewrite H1, H2. simpl. split; [exact Hs | lia].
Qed.

(** A pass inside the operational hours: a break, or a tick and a minute
    of sleep. *)
Lemma start_pass_inside started self w :
  fst (is_within_operational_hours E w) = true ->
  start_pass E started self w
  = let d := should_take_break E started self
               (snd (is_within_operational_hours E w)) in
    match fst d with
    | RetSchedule schedule =>
        let b := take_break E schedule self (snd d) in
        ((clock E (clock_reads (snd b)), fst b),
         set_clock_reads (S (clock_reads (snd b))) (snd b))
    | _ =>
        let t := run_tasks E self (snd d) in
        ((started, fst (sleeping E 60 (fst t) (snd t))),
         snd (sleeping E 60 (fst t) (snd t)))
    end.
Proof.
  intros Hin. unfold start_pass, bind, now, ret.
  destruct (is_within_operational_hours E w) as [inside w1].
  simpl in Hin. subst inside.
  cbn -[take_break run_tasks sleeping should_take_break].
  destruct (should_take_break E started self w1) as [[| |schedule] w2];
    cbn -[take_break run_tasks sleeping should_take_break].
  - destruct (run_tasks E self w2) as [s1 w3].
    cbn -[sleeping]. destruct (sleeping E 60 s1 w3) as [s2 w4]. reflexivity.
  - destruct (run_tasks E self w2) as [s1 w3].
    cbn -[sleeping]. destruct (sleeping E 60 s1 w3) as [s2 w4]. reflexivity.
  - destruct (take_break E schedule self w2) as [s1 w3]. reflexivity.
Qed.

(** The pass during whose first sleep [stop()] arrives. *)
Lemma stopped_pass started self w :
  is_running self = true ->
  stop_request E (List.length (slept w)) = true ->
  (forall schedule, In schedule (break_schedule (config_in_force w)) ->
     enabled schedule = true -> 1 <= break_minutes schedule) ->
  let p := start_pass E started self w in
  is_running (snd (fst p)) = false /\
  List.length (slept (snd p)) = S (List.length (slept w)) /\
  (task_calls (snd p) <= task_calls w + List.length (tasks self))%nat.
Proof.
  intros Hrun Hstop Hlong p. unfold p. clear p.
  pose proof (within_hours_keeps_config w) as Hcfg.
  pose proof (within_hours_keeps_slept w) as Hsl.
  pose proof (within_hours_keeps_calls w) as Hca.
  destruct (fst (is_within_operational_hours E w)) eqn:Hin.
  - rewrite start_pass_inside by exact Hin. cbv zeta.
    set (w1 := snd (is_within_operational_hours E w)) in *.
    pose proof (should_take_break_keeps_slept started self w1) as Hds.
    pose proof (should_take_break_keeps_calls started self w1) as Hdc.
    assert (Hrule : forall schedule,
              fst (should_take_break E started self w1) = RetSchedule schedule ->
              1 <= break_minutes schedule).
    { intros schedule Hd. destruct (break_mode self) eqn:Hb.
      - unfold should_take_break in Hd. rewrite Hb in Hd. discriminate.
      - rewrite should_take_break_answer in Hd by exact Hb.
        destruct (find _ _) as [found|] eqn:Hfind; [|discriminate].
        injection Hd as ->. apply find_some in Hfind.
        destruct Hfind as [Hin' Hq].
        apply Hlong.
        + unfold config_in_force in *. rewrite <- Hcfg. exact Hin'.
        + unfold qualifies in Hq. apply andb_prop in Hq.
          destruct Hq as [Hq _]. apply andb_prop in Hq. apply Hq. }
    set (d := should_take_break E started self w1) in *.
    assert (Hcase : forall t : scheduler * world,
              t = run_tasks E self (snd d) ->
              is_running (fst (sleeping E 60 (fst t) (snd t))) = false /\
              List.length (slept (snd (sleeping E 60 (fst t) (snd t))))
              = S (List.length (slept w)) /\
              (task_calls (snd (sleeping E 60 (fst t) (snd t)))
               <= task_calls w + List.length (tasks self))%nat).
    { intros t ->.
      pose proof (run_tasks_effect self (snd d)) as [Ht1 Ht2].
      pose proof (sleeping_effect 60 (fst (run_tasks E self (snd d)))
                    (snd (run_tasks E self (snd d)))) as [Hz1 Hz2].
      rewrite Hz1, Hz2, sleeping_keeps_calls, Ht1, Hds, Hsl, Hstop.
      rewrite length_app. simpl. split; [reflexivity|]. split; lia. }
    destruct (fst d) as [| |schedule] eqn:Hd.
    + apply Hcase. reflexivity.
    + apply Hcase. reflexivity.
    + cbn [fst snd].
      pose proof (take_break_stopped E schedule self (snd d) 0 Hrun) as Hb.
      rewrite Nat.add_0_r, Hds, Hsl in Hb.
      specialize (Hb ltac:(specialize (Hrule schedule eq_refl); lia)
                     ltac:(intros j Hj; lia) Hstop).
      destruct Hb as [Hb1 Hb2].
      rewrite Hb1. simpl slept. rewrite Hb2.
      simpl task_calls. rewrite take_break_keeps_calls, Hdc.
      split; [reflexivity|]. split; lia.
  - rewrite start_pass_outside by exact Hin. cbv zeta.
    set (w1 := snd (is_within_operational_hours E w)) in *.
    set (w2 := set_printed _ w1).
    pose proof (sleeping_effect 300 self w2) as [Hz1 Hz2].
    cbn [fst snd].
    rewrite Hz1, Hz2, sleeping_keeps_calls.
    unfold w2. simpl slept. simpl task_calls. rewrite Hsl, Hstop.
    rewrite length_app. simpl. split; [reflexivity|]. split; lia.
Qed.

(** X16. A [stop()] takes effect within one pass of the loop. On a running
    scheduler whose enabled break rules all last a minute or more, when
    [stop()] arrives during the next sleep, the loop of [start] ends after
    the current pass: that sleep is the last one, each task is invoked once
    at most, and [is_running] is [False]. *)
Theorem stop_ends_the_loop_within_one_pass passes started self w :
  is_running self = true ->
  stop_request E (List.length (slept w)) = true ->
  (forall schedule, In schedule (break_schedule (config_in_force w)) ->
     enabled schedule = true -> 1 <= break_minutes schedule) ->
  let r := start_loop E (S passes) started self w in
  fst (fst r) = true /\
  is_running (snd (fst r)) = false /\
  List.length (slept (snd r)) = S (List.length (slept w)) /\
  (task_calls (snd r) <= task_calls w + List.length (tasks self))%nat.
Proof.
  intros Hrun Hstop Hlong r. unfold r. clear r.
  rewrite start_loop_step, Hrun.
  pose proof (stopped_pass started self w Hrun Hstop Hlong) as [H1 [H2 H3]].
  rewrite start_loop_stopped by exact H1.
  cbn [fst snd]. auto.
Qed.

End Facts.

Lemma sync_rests_half_an_hour :
  run_task (noon + 10 * 60 * Py.usec) (fst (run_task noon sync_task bare))
    bare
  = (fst (run_task noon sync_task bare), bare) /\
  is_due (noon + 30 * 60 * Py.usec) (fst (run_task noon sync_task bare))
  = true.
Proof.
  split.
  - apply (proj1 (task_rests_for_its_interval noon sync_task bare
                    eq_refl eq_refl (noon + 10 * 60 * Py.usec) bare)).
    reflexivity.
  - apply (proj2 (task_rests_for_its_interval noon sync_task bare
                    eq_refl eq_refl (noon + 30 * 60 * Py.usec) bare)).
    discriminate.
Defined.

Lemma backup_runs_at_noon :
  let w1 :=
    snd (add_task "backup" (fun _ => Returns) 120 running_sync bare) in
  let current_time :=
    clock at_noon
      (clock_reads (snd (is_within_operational_hours at_noon w1))) in
  let registered :=
    {| name := "backup"; function := fun _ => Returns; interval := 120;
       last_run := None |} in
  let n :=
    (task_calls bare
     + List.length (filter (is_due current_time) (tasks running_sync)))%nat in
  task_calls
    (snd (run_tasks at_noon
            (fst (add_task "backup" (fun _ => Returns) 120 running_sync
                    bare)) w1))
  = S n /\
  exists earlier,
    List.length earlier = List.length (tasks running_sync) /\
    tasks (fst (run_tasks at_noon
                  (fst (add_task "backup" (fun _ => Returns) 120 running_sync
                          bare)) w1))
    = earlier ++ [ match (fun _ : nat => Returns) n with
                   | Returns => set_last_run (Some current_time) registered
                   | Fails _ => registered
                   end ].
Proof.
  apply (new_task_runs_at_next_tick at_noon "backup" (fun _ => Returns) 120
           running_sync bare); reflexivity.
Defined.

Lemma the_night_shift_never_runs :
  let r := start at_noon 5 running_sync night_world in
  tasks (snd (fst r)) = tasks running_sync /\
  task_calls (snd r) = task_calls night_world /\
  slept (snd r) = slept night_world ++ repeat (pause 300) 5.
Proof.
  apply (overnight_window_never_opens at_noon 5 running_sync night_world
           22 0 6 0); try reflexivity; lia.
Defined.

Lemma a_quarter_of_an_hour_of_rest :
  fst (take_break at_noon quarter_hour running_sync bare)
  = set_last_break_time (Some (clock at_noon (clock_reads bare)))
      (set_break_mode false running_sync) /\
  slept (snd (take_break at_noon quarter_hour running_sync bare))
  = slept bare ++ repeat (pause 60) (Z.to_nat (break_minutes quarter_hour)).
Proof.
  apply (uninterrupted_break_completes at_noon quarter_hour running_sync bare).
  - reflexivity.
  - intros j _. reflexivity.
Defined.

Lemma noon_is_inside_the_default_window :
  fst (is_within_operational_hours at_noon bare)
  = (60 * 6 + 0 <=? minute_of_day (clock at_noon (clock_reads bare)))
    && (minute_of_day (clock at_noon (clock_reads bare)) <=? 60 * 23 + 0).
Proof.
  apply (operational_hours_compare_times_of_day at_noon bare 6 0 23 0);
    try reflexivity; lia.
Defined.

Lemma stop_during_the_first_minute :
  let r := start_loop stop_at_once 4 noon running_sync bare in
  fst (fst r) = true /\
  is_running (snd (fst r)) = false /\
  List.length (slept (snd r)) = S (List.length (slept bare)) /\
  (task_calls (snd r)
   <= task_calls bare + List.length (tasks running_sync))%nat.
Proof.
  apply (stop_ends_the_loop_within_one_pass stop_at_once 3 noon running_sync
           bare).
  - reflexivity.
  - reflexivity.
  - intros schedule [<-|[]] _. simpl. lia.
Defined.

End SchedulerMore.

(** ** The API client *)

From Stdlib Require Import Lqa.

Module APIClientMore.
Import APIClient APIClientProps APIClientRest APIClientTerms APIClientFacts
  Scenario MoreScenarios.

Lemma backoff_cons attempt k :
  backoff attempt (S k)
  = inject_Z (2 ^ Z.of_nat attempt) :: backoff (S attempt) k.
Proof. reflexivity. Qed.

Lemma after_attempts_none attempt w : after_attempts attempt 0 w = w.
Proof.
  unfold after_attempts, backoff. simpl. rewrite app_nil_r, Nat.add_0_r.
  destruct w; reflexivity.
Qed.

(** One attempt that is tried again, then [k] more. *)
Lemma after_attempts_more attempt k w :
  after_attempts (S attempt) k
    (set_slept (slept w ++ [inject_Z (2 ^ Z.of_nat attempt)])
       (set_http_calls (S (http_calls w)) w))
  = after_attempts attempt (S k) w.
Proof.
  unfold after_attempts. rewrite backoff_cons.
  destruct w; unfold set_slept, set_http_calls; simpl.
  rewrite <- app_assoc. f_equal. lia.
Qed.

(** Letter by letter: a platform is one of the three that are simulated,
    or the request is refused. *)
Ltac spelled :=
  first
    [ solve [right; right; right; split; [reflexivity | intros; reflexivity]]
    | solve [left; reflexivity]
    | solve [right; left; reflexivity]
    | solve [right; right; left; reflexivity] ].

Ltac spell s :=
  first
    [ spelled
    | let c := fresh "c" in
      let t := fresh "t" in
      destruct s as [|c t];
      [ spelled | destruct c as [[] [] [] [] [] [] [] []]; spell t ] ].

Lemma platform_cases (E : oracle) (s : string) :
  s = "facebook" \/ s = "instagram" \/ s = "twitter" \/
  (platform_profile s = None /\
   forall act target token w,
     execute_social_action E (Some s) act target token w
     = ((false, Message (String.append "Unsupported platform: " s)),
        set_clock_reads (S (clock_reads w)) w)).
Proof. spell s. Qed.

Lemma profiled_platform s profile :
  platform_profile s = Some profile ->
  (s = "facebook" /\ profile = (3%Q, 9 # 10, "fb_")) \/
  (s = "instagram" /\ profile = (4%Q, 85 # 100, "ig_")) \/
  (s = "twitter" /\ profile = (2%Q, 80 # 100, "tw_")).
Proof.
  unfold platform_profile.
  destruct (String.eqb_spec s "facebook") as [->|_];
    [intros [= <-]; auto|].
  destruct (String.eqb_spec s "instagram") as [->|_];
    [intros [= <-]; auto|].
  destruct (String.eqb_spec s "twitter") as [->|_];
    [intros [= <-]; auto 6 | discriminate].
Qed.

Lemma uniform_range (a b r : Q) :
  (a <= b -> 0 <= r -> r < 1 ->
   a <= a + (b - a) * r /\ a + (b - a) * r <= b)%Q.
Proof. intros. split; nra. Qed.

Section Facts.
Variable E : oracle.

(** What [handle] does with an exception the inner [try] catches. *)
Lemma handle_caught e attempt retries w :
  caught_inside e = true ->
  handle E e attempt retries w
  = if attempt <? retries - 1
    then (None, set_slept (slept w ++ [inject_Z (2 ^ attempt)]) w)
    else (Some (Return (inner_failure e)), w).
Proof.
  unfold caught_inside, handle, inner_failure.
  destruct (caught_as e); intros H; try discriminate;
    destruct (attempt <? retries - 1); reflexivity.
Qed.

(** One iteration of the loop, by what the attempt gives. *)
Lemma request_loop_step method retries fewer attempt response w :
  supported method = true ->
  request_loop E method retries (S fewer) attempt response w
  = let w1 := set_http_calls (S (http_calls w)) w in
    let w2 := set_slept (slept w1 ++ [inject_Z (2 ^ attempt)]) w1 in
    match transport E (http_calls w) with
    | Response status body =>
        if (200 <=? status) && (status <? 300) then
          match body with
          | NoContent => (Return (true, Document (JObj [])), w1)
          | Content (inl doc) => (Return (true, Document doc), w1)
          | Content (inr e) =>
              if caught_inside e then
                if attempt <? retries - 1
                then request_loop E method retries fewer (attempt + 1)
                       (Some status) w2
                else (Return (inner_failure e), w1)
              else (Raise e, w1)
          end
        else
          request_loop E method retries fewer (attempt + 1) (Some status)
            (if attempt <? retries - 1 then w2 else w1)
    | Raises e =>
        if caught_inside e then
          if attempt <? retries - 1
          then request_loop E method retries fewer (attempt + 1) response w2
          else (Return (inner_failure e), w1)
        else (Raise e, w1)
    end.
Proof.
  intros Hm. cbn [request_loop]. unfold supported in Hm. rewrite Hm.
  unfold bind at 1, send. cbv zeta.
  destruct (transport E (http_calls w)) as [status body|e].
  - destruct ((200 <=? status) && (status <? 300)).
    + destruct body as [|[doc|e]]; try reflexivity.
      unfold bind. destruct (caught_inside e) eqn:Hc.
      * rewrite handle_caught by exact Hc.
        destruct (attempt <? retries - 1); reflexivity.
      * unfold caught_inside in Hc. unfold handle.
        destruct (caught_as e); try discriminate. reflexivity.
    + unfold bind, sleep, ret.
      destruct (attempt <? retries - 1); reflexivity.
  - unfold bind. destruct (caught_inside e) eqn:Hc.
    + rewrite handle_caught by exact Hc.
      destruct (attempt <? retries - 1); reflexivity.
    + unfold caught_inside in Hc. unfold handle.
      destruct (caught_as e); try discriminate. reflexivity.
Qed.

(** After [k] attempts that are tried again, with attempts left, the loop
    is where it would be [k] iterations later. *)
Lemma request_loop_tried_again method retries k :
  forall remaining attempt response w,
    supported method = true ->
    Z.of_nat (attempt + remaining) = retries ->
    (k < remaining)%nat ->
    (forall j, (j < k)%nat ->
       tried_again (transport E (http_calls w + j)) = true) ->
    exists response',
      request_loop E method retries remaining (Z.of_nat attempt) response w
      = request_loop E method retries (remaining - k)
          (Z.of_nat (attempt + k)) response' (after_attempts attempt k w).
Proof.
  induction k as [|k IH]; intros remaining attempt response w Hm Hn Hk Hall.
  - exists response.
    rewrite after_attempts_none, Nat.sub_0_r, Nat.add_0_r. reflexivity.
  - destruct remaining as [|fewer]; [lia|].
    rewrite request_loop_step by exact Hm. cbv zeta.
    pose proof (Hall 0%nat ltac:(lia)) as H0. rewrite Nat.add_0_r in H0.
    assert (Hlt : (Z.of_nat attempt <? retries - 1) = true)
      by (apply Z.ltb_lt; lia).
    rewrite Hlt.
    replace (Z.of_nat attempt + 1) with (Z.of_nat (S attempt)) by lia.
    assert (Hnext : forall response1, exists response',
      request_loop E method retries fewer (Z.of_nat (S attempt)) response1
        (set_slept
           (slept (set_http_calls (S (http_calls w)) w)
            ++ [inject_Z (2 ^ Z.of_nat attempt)])
           (set_http_calls (S (http_calls w)) w))
      = request_loop E method retries (S fewer - S k)
          (Z.of_nat (attempt + S k)) response'
          (after_attempts attempt (S k) w)).
    { intros response1.
      destruct (IH fewer (S attempt) response1
                  (set_slept
                     (slept (set_http_calls (S (http_calls w)) w)
                      ++ [inject_Z (2 ^ Z.of_nat attempt)])
                     (set_http_calls (S (http_calls w)) w)) Hm)
        as [response' Hr]; try lia.
      - intros j Hj. simpl http_calls.
        replace (S (http_calls w) + j)%nat with (http_calls w + S j)%nat
          by lia.
        apply Hall. lia.
      - exists response'. rewrite Hr.
        simpl slept. rewrite after_attempts_more.
        replace (S attempt + k)%nat with (attempt + S k)%nat by lia.
        reflexivity. }
    unfold tried_again in H0.
    destruct (transport E (http_calls w)) as [status body|e].
    + destruct ((200 <=? status) && (status <? 300)).
      * destruct body as [|[doc|e]]; try discriminate.
        rewrite H0. apply Hnext.
      * apply Hnext.
    + rewrite H0. apply Hnext.
Qed.

(** The attempt that is not tried again ends the loop. *)
Lemma request_loop_decided method retries fewer attempt response w :
  supported method = true ->
  tried_again (transport E (http_calls w)) = false ->
  outer_handler
    (fst (request_loop E method retries (S fewer) attempt response w))
  = decided (transport E (http_calls w)) /\
  snd (request_loop E method retries (S fewer) attempt response w)
  = set_http_calls (S (http_calls w)) w.
Proof.
  intros Hm Hno. rewrite request_loop_step by exact Hm. cbv zeta.
  unfold tried_again in Hno.
  destruct (transport E (http_calls w)) as [status body|e].
  - destruct ((200 <=? status) && (status <? 300)); [|discriminate].
    destruct body as [|[doc|e]]; try (split; reflexivity).
    rewrite Hno. split; reflexivity.
  - rewrite Hno. split; reflexivity.
Qed.

Lemma make_request_decided url method headers data retries w k :
  supported method = true ->
  (k < Z.to_nat retries)%nat ->
  (forall j, (j < k)%nat ->
     tried_again (transport E (http_calls w + j)) = true) ->
  tried_again (transport E (http_calls w + k)) = false ->
  make_request E url method headers data retries w
  = (decided (transport E (http_calls w + k)),
     set_http_calls (S (http_calls w + k)) (after_attempts 0 k w)).
Proof.
  intros Hm Hk Hall Hno. unfold make_request, bind.
  destruct (request_loop_tried_again method retries k (Z.to_nat retries)
              0%nat None w Hm ltac:(lia) Hk Hall) as [response' Hr].
  change 0 with (Z.of_nat 0). rewrite Hr.
  destruct (Z.to_nat retries - k)%nat as [|fewer] eqn:Hrest; [lia|].
  replace (http_calls w + k)%nat with (http_calls (after_attempts 0 k w))
    in Hno |- * by reflexivity.
  pose proof (request_loop_decided method retries fewer
                (Z.of_nat (0 + k)) response' (after_attempts 0 k w) Hm Hno)
    as [H1 H2].
  destruct (request_loop E method retries (S fewer) _ response' _)
    as [c w1].
  simpl in H1, H2. unfold ret. rewrite H1, H2. reflexivity.
Qed.

(** X17. The first success ends the retries. When the first [k] attempts
    are tried again ([k] less than [retries]) and the next one gets a 2xx
    response whose body is empty or decodes, [make_request] returns [True]
    with the decoded document (the empty dictionary for an empty body)
    after [k + 1] calls and the pauses 1, 2, ..., [2 ** (k - 1)], and makes
    no further call. *)
Theorem first_success_ends_the_retries url method headers data retries w
    k status body :
  supported method = true ->
  (k < Z.to_nat retries)%nat ->
  (forall j, (j < k)%nat ->
     tried_again (transport E (http_calls w + j)) = true) ->
  transport E (http_calls w + k) = Response status body ->
  200 <= status < 300 ->
  (forall e, body <> Content (inr e)) ->
  make_request E url method headers data retries w
  = ((true, Document match body with
                     | Content (inl doc) => doc
                     | _ => JObj []
                     end),
     set_http_calls (S (http_calls w + k)) (after_attempts 0 k w)).
Proof.
  intros Hm Hk Hall Ht Hs Hbody.
  rewrite (make_request_decided url method headers data retries w k Hm Hk Hall).
  - rewrite Ht. destruct body as [|[doc|e]]; try reflexivity.
    exfalso. apply (Hbody e). reflexivity.
  - rewrite Ht. unfold tried_again.
    replace ((200 <=? status) && (status <? 300)) with true
      by (symmetry; apply andb_true_intro; split;
          [apply Z.leb_le | apply Z.ltb_lt]; lia).
    destruct body as [|[doc|e]]; try reflexivity.
    exfalso. apply (Hbody e). reflexivity.
Qed.

(** X18. An exception that no inner clause catches is not retried. When
    the first [k] attempts are tried again ([k] less than [retries]) and
    the next call raises an exception that is neither a timeout, nor a
    connection error, nor another request exception, [make_request] makes
    no further call and returns the failure of its outer handler, with the
    text of the exception. *)
Theorem uncaught_exception_is_not_retried url method headers data retries w
    k e :
  supported method = true ->
  (k < Z.to_nat retries)%nat ->
  (forall j, (j < k)%nat ->
     tried_again (transport E (http_calls w + j)) = true) ->
  transport E (http_calls w + k) = Raises e ->
  caught_as e = OtherException ->
  make_request E url method headers data retries w
  = ((false, Message (String.append "Unexpected error: " (text e))),
     set_http_calls (S (http_calls w + k)) (after_attempts 0 k w)).
Proof.
  intros Hm Hk Hall Ht He.
  rewrite (make_request_decided url method headers data retries w k Hm Hk Hall).
  - rewrite Ht. reflexivity.
  - rewrite Ht. unfold tried_again, caught_inside. rewrite He. reflexivity.
Qed.

(** When every attempt is tried again, the last one decides what is
    returned. *)
Lemma make_request_exhausted url method headers data retries w :
  supported method = true ->
  1 <= retries ->
  (forall j, (j < Z.to_nat retries)%nat ->
     tried_again (transport E (http_calls w + j)) = true) ->
  make_request E url method headers data retries w
  = (last_failure retries
       (transport E (http_calls w + (Z.to_nat retries - 1))),
     set_http_calls (http_calls w + Z.to_nat retries)
       (after_attempts 0 (Z.to_nat retries - 1) w)).
Proof.
  intros Hm Hn Hall. unfold make_request, bind.
  destruct (request_loop_tried_again method retries (Z.to_nat retries - 1)
              (Z.to_nat retries) 0%nat None w Hm ltac:(lia) ltac:(lia))
    as [response' Hr].
  { intros j Hj. apply Hall. lia. }
  change 0 with (Z.of_nat 0). rewrite Hr.
  replace (Z.to_nat retries - (Z.to_nat retries - 1))%nat with 1%nat by lia.
  specialize (Hall (Z.to_nat retries - 1)%nat ltac:(lia)).
  set (k := (Z.to_nat retries - 1)%nat) in *.
  rewrite request_loop_step by exact Hm. cbv zeta.
  replace (http_calls (after_attempts 0 k w)) with (http_calls w + k)%nat
    by reflexivity.
  replace (Z.of_nat (0 + k) <? retries - 1) with false
    by (symmetry; apply Z.ltb_ge; lia).
  replace (http_calls w + Z.to_nat retries)%nat
    with (S (http_calls w + k)) by lia.
  unfold tried_again in Hall. unfold last_failure.
  destruct (transport E (http_calls w + k)) as [status body|e].
  - destruct ((200 <=? status) && (status <? 300)).
    + destruct body as [|[doc|e]]; try discriminate.
      rewrite Hall. reflexivity.
    + reflexivity.
  - rewrite Hall. reflexivity.
Qed.

(** X19. When the retries are used up, the last failure decides the
    answer. When each of the [retries] attempts is tried again,
    [make_request] makes [retries] calls, pauses [2 ** attempt] seconds
    after each but the last, and returns the failure of the last attempt:
    its status, a timeout, a connection error, or the text of another
    request error. *)
Theorem last_failure_decides url method headers data retries w :
  supported method = true ->
  1 <= retries ->
  (forall j, (j < Z.to_nat retries)%nat ->
     tried_again (transport E (http_calls w + j)) = true) ->
  make_request E url method headers data retries w
  = (last_failure retries
       (transport E (http_calls w + (Z.to_nat retries - 1))),
     set_http_calls (http_calls w + Z.to_nat retries)
       (after_attempts 0 (Z.to_nat retries - 1) w)).
Proof. apply make_request_exhausted. Qed.

Lemma backoff_in_seconds first count :
  backoff first count = map inject_Z (backoff_seconds first count).
Proof. unfold backoff, backoff_seconds. rewrite map_map. reflexivity. Qed.

Lemma backoff_seconds_sum count : forall first,
  fold_right Z.add 0 (backoff_seconds first count)
  = 2 ^ Z.of_nat first * (2 ^ Z.of_nat count - 1).
Proof.
  induction count as [|count IH]; intros first.
  - simpl. lia.
  - unfold backoff_seconds in *. cbn [seq map fold_right].
    rewrite IH. rewrite !Nat2Z.inj_succ, !Z.pow_succ_r by lia. lia.
Qed.

(** X20. The waiting of a request that fails to the end doubles with each
    retry: when each of the [retries] attempts is tried again, the pauses
    of [make_request] are whole seconds that add up to
    [2 ** (retries - 1) - 1]. *)
Theorem exhausted_request_waits_two_to_the_retries url method headers data
    retries w :
  supported method = true ->
  1 <= retries ->
  (forall j, (j < Z.to_nat retries)%nat ->
     tried_again (transport E (http_calls w + j)) = true) ->
  exists seconds,
    slept (snd (make_request E url method headers data retries w))
    = slept w ++ map inject_Z seconds /\
    fold_right Z.add 0 seconds = 2 ^ (retries - 1) - 1.
Proof.
  intros Hm Hn Hall.
  rewrite (make_request_exhausted url method headers data retries w Hm Hn Hall).
  exists (backoff_seconds 0 (Z.to_nat retries - 1)). split.
  - simpl. rewrite backoff_in_seconds. reflexivity.
  - rewrite backoff_seconds_sum. simpl Z.of_nat.
    replace (Z.of_nat (Z.to_nat retries - 1)) with (retries - 1) by lia.
    lia.
Qed.

(** The loop never makes more calls than it has iterations, and its
    pauses are the first ones of the doubling series. *)
Lemma request_loop_bound method retries remaining :
  forall attempt response w,
    remaining = 0%nat \/ Z.of_nat (attempt + remaining) = retries ->
    let r := request_loop E method retries remaining (Z.of_nat attempt)
               response w in
    exists k, (k <= remaining - 1)%nat /\
      slept (snd r) = slept w ++ backoff attempt k /\
      (http_calls w <= http_calls (snd r) <= http_calls w + k + 1)%nat /\
      (http_calls (snd r) <= http_calls w + remaining)%nat.
Proof.
  induction remaining as [|fewer IH]; intros attempt response w Hn.
  - exists 0%nat. simpl. rewrite app_nil_r. repeat split; lia.
  - destruct Hn as [Hn|Hn]; [discriminate|].
    cbv zeta.
    assert (Hstay : exists k, (k <= S fewer - 1)%nat /\
              slept w = slept w ++ backoff attempt k /\
              (http_calls w <= http_calls w <= http_calls w + k + 1)%nat /\
              (http_calls w <= http_calls w + S fewer)%nat).
    { exists 0%nat. simpl. rewrite app_nil_r. repeat split; lia. }
    assert (Hone : exists k, (k <= S fewer - 1)%nat /\
              slept (set_http_calls (S (http_calls w)) w)
              = slept w ++ backoff attempt k /\
              (http_calls w
               <= http_calls (set_http_calls (S (http_calls w)) w)
               <= http_calls w + k + 1)%nat /\
              (http_calls (set_http_calls (S (http_calls w)) w)
               <= http_calls w + S fewer)%nat).
    { exists 0%nat. simpl. rewrite app_nil_r. repeat split; lia. }
    destruct (supported method) eqn:Hm.
    2:{ cbn [request_loop]. unfold supported in Hm. rewrite Hm. exact Hstay. }
    rewrite request_loop_step by exact Hm. cbv zeta.
    replace (Z.of_nat attempt + 1) with (Z.of_nat (S attempt)) by lia.
    assert (Hgo : forall response1,
      (Z.of_nat attempt <? retries - 1) = true ->
      exists k, (k <= S fewer - 1)%nat /\
        slept (snd (request_loop E method retries fewer
                      (Z.of_nat (S attempt)) response1
                      (set_slept
                         (slept (set_http_calls (S (http_calls w)) w)
                          ++ [inject_Z (2 ^ Z.of_nat attempt)])
                         (set_http_calls (S (http_calls w)) w))))
        = slept w ++ backoff attempt k /\
        (http_calls w
         <= http_calls (snd (request_loop E method retries fewer
                      (Z.of_nat (S attempt)) response1
                      (set_slept
                         (slept (set_http_calls (S (http_calls w)) w)
                          ++ [inject_Z (2 ^ Z.of_nat attempt)])
                         (set_http_calls (S (http_calls w)) w))))
         <= http_calls w + k + 1)%nat /\
        (http_calls (snd (request_loop E method retries fewer
                      (Z.of_nat (S attempt)) response1
                      (set_slept
                         (slept (set_http_calls (S (http_calls w)) w)
                          ++ [inject_Z (2 ^ Z.of_nat attempt)])
                         (set_http_calls (S (http_calls w)) w))))
         <= http_calls w + S fewer)%nat).
    { intros response1 Hlt. apply Z.ltb_lt in Hlt.
      match goal with |- context [request_loop E method retries fewer _ _ ?w2] =>
        destruct (IH (S attempt) response1 w2 ltac:(right; lia))
          as [k [Hk [Hs [Hc1 Hc2]]]];
        assert (Hb : http_calls w2 = S (http_calls w)) by reflexivity;
        assert (Hsl : slept w2
                      = slept w ++ [inject_Z (2 ^ Z.of_nat attempt)])
          by reflexivity
      end.
      rewrite Hb in Hc1, Hc2. rewrite Hsl in Hs.
      exists (S k). split; [lia|]. split.
      - rewrite Hs, <- app_assoc. reflexivity.
      - split; lia. }
    assert (Hend : forall response1,
      (Z.of_nat attempt <? retries - 1) = false ->
      exists k, (k <= S fewer - 1)%nat /\
        slept (snd (request_loop E method retries fewer
                      (Z.of_nat (S attempt)) response1
                      (set_http_calls (S (http_calls w)) w)))
        = slept w ++ backoff attempt k /\
        (http_calls w
         <= http_calls (snd (request_loop E method retries fewer
                      (Z.of_nat (S attempt)) response1
                      (set_http_calls (S (http_calls w)) w)))
         <= http_calls w + k + 1)%nat /\
        (http_calls (snd (request_loop E method retries fewer
                      (Z.of_nat (S attempt)) response1
                      (set_http_calls (S (http_calls w)) w)))
         <= http_calls w + S fewer)%nat).
    { intros response1 Hge. apply Z.ltb_ge in Hge.
      assert (fewer = 0%nat) by lia. subst fewer. exact Hone. }
    destruct (transport E (http_calls w)) as [status body|e].
    + destruct ((200 <=? status) && (status <? 300)).
      * destruct body as [|[doc|e]]; try exact Hone.
        destruct (caught_inside e); [|exact Hone].
        destruct (Z.of_nat attempt <? retries - 1);
          [apply Hgo; reflexivity | exact Hone].
      * destruct (Z.of_nat attempt <? retries - 1);
          [apply Hgo | apply Hend]; reflexivity.
    + destruct (caught_inside e); [|exact Hone].
      destruct (Z.of_nat attempt <? retries - 1);
        [apply Hgo; reflexivity | exact Hone].
Qed.

(** X21. Whatever the network does, [make_request] makes at most [retries]
    calls (none when [retries] is zero or less), and its pauses are the
    first ones of the series 1, 2, 4, ...: one pause less than calls at
    least, and [retries - 1] pauses at most. *)
Theorem attempts_and_pauses_are_bounded url method headers data retries w :
  let r := make_request E url method headers data retries w in
  (http_calls (snd r) <= http_calls w + Z.to_nat retries)%nat /\
  exists k, (k <= Z.to_nat retries - 1)%nat /\
    slept (snd r) = slept w ++ backoff 0 k /\
    (http_calls w <= http_calls (snd r) <= http_calls w + k + 1)%nat.
Proof.
  cbv zeta. unfold make_request, bind.
  pose proof (request_loop_bound method retries (Z.to_nat retries) 0%nat
                None w) as H.
  cbv zeta in H. change (Z.of_nat 0) with 0 in H.
  destruct H as [k [Hk [Hs [Hc1 Hc2]]]].
  { destruct (Z.to_nat retries) eqn:Hr; [left; reflexivity | right; lia]. }
  destruct (request_loop E method retries (Z.to_nat retries) 0 None w)
    as [c w1].
  simpl in *. split; [exact Hc2|]. exists k. auto.
Qed.

(** X22. A method whose upper case is none of GET, POST and PUT is refused
    before any call: with [retries] of one or more, [make_request] returns
    the failure naming the method as it was given, and nothing has happened
    in the world. *)
Theorem unsupported_method_is_refused url method headers data retries w :
  supported method = false ->
  1 <= retries ->
  make_request E url method headers data retries w
  = ((false, Message (String.append "Unsupported HTTP method: " method)), w).
Proof.
  intros Hm Hn. unfold make_request, bind.
  destruct (Z.to_nat retries) as [|fewer] eqn:Hr; [lia|].
  cbn [request_loop]. unfold supported in Hm. rewrite Hm. reflexivity.
Qed.

(** The upper case of [str.upper()] is that of Unicode: ["post"] written
    with a long s is sent as a POST, three times when the server answers
    500. *)
Lemma post_with_long_s_is_sent :
  upper post_with_long_s = "POST" /\
  supported post_with_long_s = true /\
  http_calls
    (snd (make_request at_noon "http://example.test" post_with_long_s []
            None 3 bare)) = 3%nat.
Proof. vm_compute. repeat split. Qed.

(** The three methods are in capitals already. *)
Lemma upper_supported method :
  supported method = true -> upper (upper method) = upper method.
Proof.
  unfold supported. cbv zeta. intros H.
  apply orb_true_iff in H. destruct H as [H|H];
    [apply orb_true_iff in H; destruct H as [H|H]|];
    apply String.eqb_eq in H; rewrite H; reflexivity.
Qed.

Lemma request_loop_upper method retries remaining :
  supported method = true ->
  forall attempt response w,
    request_loop E method retries remaining attempt response w
    = request_loop E (upper method) retries remaining attempt response w.
Proof.
  intros Hm.
  assert (Hu : supported (upper method) = true)
    by (unfold supported in *; rewrite (upper_supported method Hm);
        exact Hm).
  induction remaining as [|fewer IH]; intros attempt response w;
    [reflexivity|].
  rewrite !request_loop_step by assumption. cbv zeta.
  destruct (transport E (http_calls w)) as [status body|e].
  - destruct ((200 <=? status) && (status <? 300)).
    + destruct body as [|[doc|e]]; try reflexivity.
      destruct (caught_inside e); [|reflexivity].
      destruct (attempt <? retries - 1); [apply IH | reflexivity].
    + apply IH.
  - destruct (caught_inside e); [|reflexivity].
    destruct (attempt <? retries - 1); [apply IH | reflexivity].
Qed.

(** X23. The method is read without regard to the case of its letters: a
    request with a supported method does and returns the same as the
    request with the method in capitals. *)
Theorem method_case_does_not_matter url method headers data retries w :
  supported method = true ->
  make_request E url method headers data retries w
  = make_request E url (upper method) headers data retries w.
Proof.
  intros Hm. unfold make_request, bind.
  rewrite (request_loop_upper method retries (Z.to_nat retries) Hm).
  reflexivity.
Qed.

Lemma execute_unknown plat act target token w :
  known_platform plat = false ->
  execute_social_action E plat act target token w
  = ((false, Message (String.append "Unsupported platform: " (str_opt plat))),
     set_clock_reads (S (clock_reads w)) w).
Proof.
  intros Hk. destruct plat as [s|]; [|reflexivity].
  unfold known_platform in Hk.
  destruct (platform_cases E s) as [->|[->|[->|[_ H]]]];
    try discriminate Hk.
  apply H.
Qed.

(** X24. A platform other than facebook, instagram and twitter, or none at
    all, is refused at once: [execute_social_action] returns the failure
    naming the platform; it has read the clock once, and has neither slept
    nor drawn a random number. *)
Theorem unknown_platform_is_refused plat act target token w :
  known_platform plat = false ->
  execute_social_action E plat act target token w
  = ((false, Message (String.append "Unsupported platform: " (str_opt plat))),
     set_clock_reads (S (clock_reads w)) w).
Proof. apply execute_unknown. Qed.

(** What a simulated action does, for a platform that is simulated. *)
Lemma simulated_action s longest rate prefix act target token w :
  platform_profile s = Some (longest, rate, prefix) ->
  let r := execute_social_action E (Some s) act target token w in
  let succeeded :=
    if Qlt_le_dec (rng E (S (random_reads w))) rate then true else false in
  fst (fst r) = succeeded /\
  slept (snd r)
  = slept w ++ [(1 + (longest - 1) * rng E (random_reads w))%Q] /\
  random_reads (snd r) = S (S (random_reads w)) /\
  exists items,
    snd (fst r) = Dict items /\
    (exists t, get "response_time" items = Some (VFloat t)) /\
    if succeeded
    then get "success" items = Some (VBool true) /\
         get "action" items = Some (value_of act) /\
         exists n, get "id" items
                   = Some (VStr (String.append prefix (Py.str_int n)))
    else get "error" items = Some (VStr "Simulated API error") /\
         get "code" items = Some (VStr "API_ERROR").
Proof.
  intros Hp.
  destruct (profiled_platform s _ Hp) as [[-> [= -> -> ->]]
    |[[-> [= -> -> ->]]|[-> [= -> -> ->]]]];
    cbv zeta;
    unfold execute_social_action, simulate_facebook_action,
      simulate_instagram_action, simulate_twitter_action, simulate,
      time_time, uniform, bind, now, random, sleep, ret;
    cbn [fst snd random_reads slept set_clock_reads set_random_reads
         set_slept clock_reads];
    destruct (Qlt_le_dec (rng E (S (random_reads w))) _);
    cbn [fst snd random_reads slept set_clock_reads set_random_reads
         set_slept clock_reads];
    (split; [reflexivity|]); (split; [reflexivity|]);
    (split; [reflexivity|]);
    eexists; (split; [reflexivity|]); (split; [eexists; reflexivity|]);
    repeat split; eexists; reflexivity.
Qed.

(** X25. For a platform that is simulated, [execute_social_action] sleeps
    once, for [1 + (longest - 1) * u] seconds with [u] the first random
    number it draws, and succeeds exactly when the second number it draws
    is below the rate of the platform (0.9 for facebook, 0.85 for
    instagram, 0.8 for twitter). The result is a dictionary that holds a
    response time; on success it holds the identifier with the prefix of
    the platform and echoes the action type, on failure it holds the
    simulated error and its code. *)
Theorem simulated_action_succeeds_at_the_rate s longest rate prefix act
    target token w :
  platform_profile s = Some (longest, rate, prefix) ->
  let r := execute_social_action E (Some s) act target token w in
  let succeeded :=
    if Qlt_le_dec (rng E (S (random_reads w))) rate then true else false in
  fst (fst r) = succeeded /\
  slept (snd r)
  = slept w ++ [(1 + (longest - 1) * rng E (random_reads w))%Q] /\
  random_reads (snd r) = S (S (random_reads w)) /\
  exists items,
    snd (fst r) = Dict items /\
    (exists t, get "response_time" items = Some (VFloat t)) /\
    if succeeded
    then get "success" items = Some (VBool true) /\
         get "action" items = Some (value_of act) /\
         exists n, get "id" items
                   = Some (VStr (String.append prefix (Py.str_int n)))
    else get "error" items = Some (VStr "Simulated API error") /\
         get "code" items = Some (VStr "API_ERROR").
Proof. apply simulated_action. Qed.

(** The sleeps of one action: one short pause for a simulated platform,
    none for another. *)
Lemma execute_sleeps plat act target token w :
  fair E ->
  exists ds,
    slept (snd (execute_social_action E plat act target token w))
    = slept w ++ ds /\
    List.length ds = (if known_platform plat then 1 else 0)%nat /\
    Forall short_pause ds.
Proof.
  intros Hfair. destruct (known_platform plat) eqn:Hk.
  - destruct plat as [s|]; [|discriminate].
    unfold known_platform in Hk.
    destruct (platform_profile s) as [[[longest rate] prefix]|] eqn:Hp;
      [|discriminate].
    destruct (simulated_action s longest rate prefix act target token w Hp)
      as [_ [Hs _]].
    eexists. split; [exact Hs|]. split; [reflexivity|].
    constructor; [|constructor].
    destruct (Hfair (random_reads w)) as [H0 H1].
    assert (Hl : (1 <= longest)%Q /\ (longest <= 4)%Q).
    { destruct (profiled_platform s _ Hp)
        as [[_ [= -> _ _]]|[[_ [= -> _ _]]|[_ [= -> _ _]]]];
        split; discriminate. }
    destruct Hl as [Hl1 Hl4].
    destruct (uniform_range 1 longest (rng E (random_reads w)) Hl1 H0 H1)
      as [Ha Hb].
    split; [exact Ha|]. eapply Qle_trans; [exact Hb | exact Hl4].
  - rewrite execute_unknown by exact Hk.
    exists []. simpl. rewrite app_nil_r. auto.
Qed.

Lemma batch_loop_sleeps actions : forall results w,
  fair E ->
  exists ps,
    slept (snd (batch_loop E actions results w)) = slept w ++ ps /\
    List.length ps
    = (List.length actions + List.length (simulated_requests actions))%nat /\
    Forall short_pause ps.
Proof.
  induction actions as [|a rest IH]; intros results w Hfair.
  - exists []. simpl. rewrite app_nil_r. auto.
  - cbn [batch_loop]. unfold bind at 1.
    destruct (execute_sleeps (platform a) (action_type a) (target_url a)
                (access_token a) w Hfair) as [ds [Hs [Hl Hb]]].
    destruct (execute_social_action E (platform a) (action_type a)
                (target_url a) (access_token a) w) as [r w1].
    simpl in Hs.
    unfold now, uniform, random, sleep, bind, ret.
    cbn [fst snd].
    match goal with |- context [batch_loop E rest ?acc ?w3] =>
      destruct (IH acc w3 Hfair) as [ps [Hps [Hlen Hall]]];
      assert (Hw3 : exists d, short_pause d /\ slept w3 = slept w1 ++ [d])
    end.
    { eexists. split; [|reflexivity].
      destruct (Hfair (random_reads w1)) as [H0 H1].
      destruct (uniform_range 1 2 (rng E (random_reads w1))
                  ltac:(discriminate) H0 H1) as [Ha Hb'].
      split; [exact Ha|]. eapply Qle_trans; [exact Hb' | discriminate]. }
    destruct Hw3 as [d [Hd Hw3]].
    exists (ds ++ d :: ps). split; [|split].
    + rewrite Hps, Hw3, Hs, <- !app_assoc. reflexivity.
    + rewrite length_app. simpl. rewrite Hlen, Hl.
      unfold simulated_requests. simpl.
      destruct (known_platform (platform a)); simpl; lia.
    + apply Forall_app. split; [exact Hb|]. constructor; assumption.
Qed.

(** X26. A batch paces itself. With a random generator that answers in
    [0, 1), [batch_execute_actions] sleeps once after every request, also
    the last one, and once more inside every request for a simulated
    platform; each of these pauses lasts between one and four seconds. *)
Theorem batch_pauses_are_short_and_counted actions w :
  fair E ->
  exists ps,
    slept (snd (batch_execute_actions E actions w)) = slept w ++ ps /\
    List.length ps
    = (List.length actions + List.length (simulated_requests actions))%nat /\
    Forall short_pause ps.
Proof.
  intros Hfair. unfold batch_execute_actions, bind.
  destruct (batch_loop_sleeps actions [] w Hfair) as [ps H].
  destruct (batch_loop E actions [] w) as [results w1].
  exists ps. exact H.
Qed.

(** X27. The health check does not look at the platform: for every
    platform, simulated or not, it sleeps one second and answers healthy
    exactly when the random number it draws is below 0.95. The flag it
    returns and the status in its dictionary always agree, and the
    dictionary echoes the platform. *)
Theorem health_check_ignores_the_platform plat w :
  let r := check_api_health E plat w in
  fst (fst r)
  = (if Qlt_le_dec (rng E (random_reads w)) (95 # 100) then true else false)
  /\
  slept (snd r) = slept w ++ [1%Q] /\
  (forall other, fst (fst (check_api_health E other w)) = fst (fst r)) /\
  exists items,
    snd (fst r) = Dict items /\
    get "platform" items = Some (value_of plat) /\
    get "status" items
    = Some (VStr (if fst (fst r) then "healthy" else "unhealthy")).
Proof.
  cbv zeta.
  unfold check_api_health, uniform, bind, sleep, random, now, ret.
  cbn [fst snd random_reads slept set_slept set_random_reads
       set_clock_reads].
  repeat split. eexists. repeat split.
Qed.

End Facts.

(** X28. [get_rate_limits] answers for the three simulated platforms and
    for no other: for them it returns the three limits, with a positive
    hourly limit no greater than the daily one; for every other platform
    (the name in another case of letters, say) it returns the empty
    dictionary. *)
Theorem rate_limits_of_known_platforms_only plat :
  match platform_profile plat with
  | Some _ =>
      exists hourly daily minute,
        get_rate_limits plat
        = [("requests_per_hour", hourly); ("requests_per_day", daily);
           ("actions_per_minute", minute)] /\
        0 < hourly <= daily
  | None => get_rate_limits plat = []
  end.
Proof.
  unfold platform_profile, get_rate_limits, rate_limits.
  cbn [get]. rewrite !(String.eqb_sym _ plat).
  destruct (String.eqb plat "facebook");
    [do 3 eexists; split; [reflexivity | lia]|].
  destruct (String.eqb plat "instagram");
    [do 3 eexists; split; [reflexivity | lia]|].
  destruct (String.eqb plat "twitter");
    [do 3 eexists; split; [reflexivity | lia]|].
  reflexivity.
Qed.

Lemma myspace_is_refused :
  execute_social_action at_noon (Some "myspace") (Some "like") None None bare
  = ((false,
      Message (String.append "Unsupported platform: "
                 (str_opt (Some "myspace")))),
     set_clock_reads (S (clock_reads bare)) bare).
Proof.
  apply (unknown_platform_is_refused at_noon (Some "myspace") (Some "like")
           None None bare).
  reflexivity.
Defined.

Lemma a_like_on_instagram :
  let r := execute_social_action at_noon (Some "instagram") (Some "like")
             None None bare in
  let succeeded :=
    if Qlt_le_dec (rng at_noon (S (random_reads bare))) (85 # 100)
    then true else false in
  fst (fst r) = succeeded /\
  slept (snd r)
  = slept bare ++ [(1 + (4 - 1) * rng at_noon (random_reads bare))%Q] /\
  random_reads (snd r) = S (S (random_reads bare)) /\
  exists items,
    snd (fst r) = Dict items /\
    (exists t, get "response_time" items = Some (VFloat t)) /\
    if succeeded
    then get "success" items = Some (VBool true) /\
         get "action" items = Some (value_of (Some "like")) /\
         exists n, get "id" items
                   = Some (VStr (String.append "ig_" (Py.str_int n)))
    else get "error" items = Some (VStr "Simulated API error") /\
         get "code" items = Some (VStr "API_ERROR").
Proof.
  apply (simulated_action_succeeds_at_the_rate at_noon "instagram" 4
           (85 # 100) "ig_" (Some "like") None None bare).
  reflexivity.
Defined.

Lemma three_likes_five_pauses :
  exists ps,
    slept (snd (batch_execute_actions at_noon
                  [like_on "facebook"; like_on "myspace"; like_on "twitter"]
                  bare))
    = slept bare ++ ps /\
    List.length ps
    = (List.length [like_on "facebook"; like_on "myspace"; like_on "twitter"]
       + List.length
           (simulated_requests
              [like_on "facebook"; like_on "myspace"; like_on "twitter"]))%nat
    /\
    Forall short_pause ps.
Proof.
  apply (batch_pauses_are_short_and_counted at_noon
           [like_on "facebook"; like_on "myspace"; like_on "twitter"] bare).
  intros n. split; [discriminate | reflexivity].
Defined.

Lemma patch_is_refused :
  make_request at_noon "http://example.test" "PATCH" [] None 3 bare
  = ((false, Message (String.append "Unsupported HTTP method: " "PATCH")),
     bare).
Proof.
  apply (unsupported_method_is_refused at_noon "http://example.test" "PATCH"
           [] None 3 bare).
  - reflexivity.
  - lia.
Defined.

Lemma post_in_small_letters :
  make_request at_noon "http://example.test" "post" [] None 3 bare
  = make_request at_noon "http://example.test" (upper "post") [] None 3 bare.
Proof.
  apply (method_case_does_not_matter at_noon "http://example.test" "post" []
           None 3 bare).
  reflexivity.
Defined.

Lemma two_timeouts_then_a_document :
  make_request third_time_lucky "http://example.test" "GET" [] None 3 bare
  = ((true, Document match Content (inl (JObj [("ok", JBool true)])) with
                     | Content (inl doc) => doc
                     | _ => JObj []
                     end),
     set_http_calls (S (http_calls bare + 2)) (after_attempts 0 2 bare)).
Proof.
  apply (first_success_ends_the_retries third_time_lucky
           "http://example.test" "GET" [] None 3 bare 2 200).
  - reflexivity.
  - vm_compute. lia.
  - intros j Hj. destruct j as [|[|j]]; [reflexivity | reflexivity | lia].
  - reflexivity.
  - lia.
  - intros e. discriminate.
Defined.

Lemma a_crash_at_the_first_call :
  make_request always_crashing "http://example.test" "GET" [] None 3 bare
  = ((false, Message (String.append "Unexpected error: " "boom")),
     set_http_calls (S (http_calls bare + 0)) (after_attempts 0 0 bare)).
Proof.
  apply (uncaught_exception_is_not_retried always_crashing
           "http://example.test" "GET" [] None 3 bare 0
           {| caught_as := OtherException; text := "boom" |}).
  - reflexivity.
  - vm_compute. lia.
  - intros j Hj. lia.
  - reflexivity.
  - reflexivity.
Defined.

Lemma three_timeouts :
  make_request always_timeout "http://example.test" "GET" [] None 3 bare
  = (last_failure 3
       (transport always_timeout (http_calls bare + (Z.to_nat 3 - 1))),
     set_http_calls (http_calls bare + Z.to_nat 3)
       (after_attempts 0 (Z.to_nat 3 - 1) bare)).
Proof.
  apply (last_failure_decides always_timeout "http://example.test" "GET" []
           None 3 bare).
  - reflexivity.
  - lia.
  - intros j _. reflexivity.
Defined.

Lemma three_timeouts_wait_three_seconds :
  exists seconds,
    slept (snd (make_request always_timeout "http://example.test" "GET" []
                  None 3 bare))
    = slept bare ++ map inject_Z seconds /\
    fold_right Z.add 0 seconds = 2 ^ (3 - 1) - 1.
Proof.
  apply (exhausted_request_waits_two_to_the_retries always_timeout
           "http://example.test" "GET" [] None 3 bare).
  - reflexivity.
  - lia.
  - intros j _. reflexivity.
Defined.

End APIClientMore.
